(** * Interactive AI Technical Tutor: the session loop of
    [interactive_ai_tutor.py], embedded and verified.

    The program is I/O orchestration: it reads a line, dispatches it to a
    command handler or to a completion backend, and records the exchange.
    The embedding keeps that shape.  Every method of [TechnicalTutor] is a
    computation in a small state-and-exception monad [M]; the state is the
    object's attributes together with the trace of everything the process has
    done to the outside world so far (prints, prompts, log records, backend
    calls, file operations).  The outside world answers through a [World]
    record of oracles, each of which sees the whole trace up to and including
    the call it answers, so that two calls of the same operation may be
    answered differently.

    Text.  Python strings are modelled by [string]; a character is a code
    point in the range U+0000..U+00FF, on which [str.lower], [str.strip] and
    [str.split] act character by character as defined below.  The
    pictographs of the program's own messages lie outside that range and are
    carried in the literals as their UTF-8 bytes; the program only ever
    prints them. *)

From Stdlib Require Import String Ascii List Bool Arith ZArith Lia.
From Stdlib Require QArith.
From Stdlib Require Import DecimalString.
Import ListNotations.

Open Scope string_scope.
Open Scope list_scope.

(** ** Python's string operations *)

Module Py.

Definition nl : string := String (ascii_of_nat 10) EmptyString.
Definition dquote : string := String (ascii_of_nat 34) EmptyString.

(** [c.isspace()] for a code point below 256: the ASCII white space
    (TAB..CR, FS..US, SPACE), NEL and NO-BREAK SPACE. *)
Definition isspace (c : ascii) : bool :=
  let n := nat_of_ascii c in
  (((9 <=? n) && (n <=? 13)) || ((28 <=? n) && (n <=? 32))
   || (n =? 133) || (n =? 160))%nat.

(** [c.lower()] for a code point below 256: A..Z and the Latin-1 capitals
    (U+00C0..U+00DE without the multiplication sign) move up by 32. *)
Definition lower_char (c : ascii) : ascii :=
  let n := nat_of_ascii c in
  if (((65 <=? n) && (n <=? 90))
      || ((192 <=? n) && (n <=? 222) && negb (n =? 215)))%nat
  then ascii_of_nat (n + 32) else c.

Fixpoint lower (s : string) : string :=
  match s with
  | EmptyString => EmptyString
  | String c s' => String (lower_char c) (lower s')
  end.

Definition is_empty (s : string) : bool :=
  match s with EmptyString => true | _ => false end.

Fixpoint lstrip (s : string) : string :=
  match s with
  | EmptyString => EmptyString
  | String c s' => if isspace c then lstrip s' else s
  end.

Fixpoint rstrip (s : string) : string :=
  match s with
  | EmptyString => EmptyString
  | String c s' =>
      let r := rstrip s' in
      if isspace c && is_empty r then EmptyString else String c r
  end.

(** [s.strip()] *)
Definition strip (s : string) : string := rstrip (lstrip s).

(** [s.split()] with no separator: the maximal runs of non-space
    characters, in order; [word] is the run being read. *)
Fixpoint split_from (word : string) (s : string) : list string :=
  match s with
  | EmptyString => if is_empty word then [] else [word]
  | String c s' =>
      if isspace c
      then (if is_empty word then split_from "" s'
            else word :: split_from "" s')
      else split_from (word ++ String c "") s'
  end.

Definition split (s : string) : list string := split_from "" s.

(** [s.startswith(p)] *)
Definition startswith (s p : string) : bool := prefix p s.

(** [s[1:]] *)
Definition tail (s : string) : string :=
  match s with EmptyString => EmptyString | String _ s' => s' end.

(** [s[:n]] *)
Definition take (n : nat) (s : string) : string := substring 0 n s.

(** [sub in s] *)
Fixpoint contains (s sub : string) : bool :=
  prefix sub s
  || match s with
     | EmptyString => false
     | String _ s' => contains s' sub
     end.

(** [sep.join(l)] *)
Definition join (sep : string) (l : list string) : string :=
  String.concat sep l.

(** [str(n)] for a non-negative integer. *)
Definition str (n : nat) : string := NilEmpty.string_of_uint (Nat.to_uint n).

(** [c * n] for a one-character string. *)
Fixpoint repeat_char (c : ascii) (n : nat) : string :=
  match n with O => EmptyString | S n' => String c (repeat_char c n') end.

(** [enumerate(l, start)] *)
Fixpoint enumerate {A} (start : nat) (l : list A) : list (nat * A) :=
  match l with
  | [] => []
  | x :: l' => (start, x) :: enumerate (S start) l'
  end.

End Py.

(** ** Exceptions, events and the outside world *)

(** The exceptions the program can meet.  [ExternalError] stands for any
    [Exception] raised by a collaborator (a backend client, the file
    system); [KeyboardInterrupt] and [SystemExit] are not [Exception]s. *)
Inductive exn : Type :=
| IndexError (msg : string)
| KeyError (key : string)
| AttributeError (msg : string)
| ExternalError (msg : string)
| KeyboardInterrupt
| SystemExit (code : Z).

(** [isinstance(e, Exception)]: what [except Exception] catches. *)
Definition is_Exception (e : exn) : bool :=
  match e with
  | KeyboardInterrupt | SystemExit _ => false
  | _ => true
  end.

(** [str(e)], as the f-strings of the program print it. *)
Definition exn_str (e : exn) : string :=
  match e with
  | IndexError msg | AttributeError msg | ExternalError msg => msg
  | KeyError key => "'" ++ key ++ "'"
  | KeyboardInterrupt => ""
  | SystemExit code => Py.str (Z.to_nat code)
  end.

Inductive LogLevel : Type := INFO | WARNING | ERROR.

(** A chat message, [{"role": ..., "content": ...}]. *)
Record message : Type := mkMessage { role : string; content : string }.

(** Everything the process does to the outside world. *)
Inductive Event : Type :=
| EvPrint (text : string)                  (* print(text) *)
| EvDisplay (markdown : string)            (* display(Markdown(text)) *)
| EvLog (level : LogLevel) (text : string) (* logger.<level>(text) *)
| EvPrompt (prompt : string)               (* input(prompt) *)
| EvLoadDotenv                             (* load_dotenv() *)
| EvOpenAIInit                             (* OpenAI() *)
| EvOllamaList                             (* ollama.list() *)
| EvOpenAIChat (model : string) (messages : list message)
               (temperature : QArith_base.Q) (max_tokens : nat)
| EvOllamaChat (model : string) (messages : list message)
| EvNow (format : string)                  (* datetime.now().strftime(format) *)
| EvOpen (filename : string)               (* open(filename, 'w') *)
| EvFileWrite (filename chunk : string)    (* f.write(chunk) *)
| EvClose (filename : string).             (* leaving the with block *)

Definition Trace : Type := list Event.

(** A call to a completion service, as opposed to an availability probe. *)
Definition is_completion_call (e : Event) : bool :=
  match e with
  | EvOpenAIChat _ _ _ _ | EvOllamaChat _ _ => true
  | _ => false
  end.

(** Any call that reaches a backend: a completion or [ollama.list()]. *)
Definition is_backend_call (e : Event) : bool :=
  match e with
  | EvOpenAIChat _ _ _ _ | EvOllamaChat _ _ | EvOllamaList => true
  | _ => false
  end.

(** What a collaborator answers: a value or an exception. *)
Inductive Reply (A : Type) : Type :=
| Returns (a : A)
| Raises (e : exn).
Arguments Returns {A} a.
Arguments Raises {A} e.

(** The handle [OpenAI()] returns. *)
Inductive OpenAIClient : Type := Client.

(** The outside world.  Each oracle is asked with the trace so far, whose
    last event is the call being answered.
    - [load_dotenv]: reading the [.env] file, which may fail;
    - [ollama_list]: the ['models'] entries of [ollama.list()], each by its
      ['name'] ([None] for an entry without one);
    - [openai_chat]: [response.choices[0].message.content];
    - [ollama_chat]: [response['message']['content']];
    - [strftime]: the formatted current time. *)
Record World : Type := mkWorld {
  load_dotenv : Trace -> Reply unit;
  openai_init : Trace -> Reply OpenAIClient;
  ollama_list : Trace -> Reply (list (option string));
  openai_chat : Trace -> Reply (option string);
  ollama_chat : Trace -> Reply (option string);
  strftime    : Trace -> string;
  fs_open     : Trace -> Reply unit;
  fs_write    : Trace -> Reply unit
}.

(** What the user does at a prompt: types a line or interrupts.  The end of
    the input script is the end of standard input ([EOFError]). *)
Inductive Input : Type :=
| Line (text : string)
| CtrlC.

(** ** The model registry *)

Definition MODEL_GPT : string := "gpt-4o-mini".
Definition MODEL_LLAMA : string := "llama3.2".
Definition MODEL_CLAUDE : string := "claude-3-haiku-20240307".

Record ModelInfo : Type := mkModelInfo {
  name : string;
  provider : string;
  description : string
}.

(** The dict [AVAILABLE_MODELS], in insertion order. *)
Definition AVAILABLE_MODELS : list (string * ModelInfo) :=
  [ ("gpt",   mkModelInfo MODEL_GPT "openai" "OpenAI GPT-4o Mini");
    ("llama", mkModelInfo MODEL_LLAMA "ollama" "Llama 3.2 (Local)") ].

(** [d.get(key)] *)
Fixpoint dict_get {V} (d : list (string * V)) (key : string) : option V :=
  match d with
  | [] => None
  | (k, v) :: d' => if k =? key then Some v else dict_get d' key
  end.

(** [d.keys()] *)
Definition dict_keys {V} (d : list (string * V)) : list string :=
  map fst d.

(** [key in d] *)
Definition dict_mem {V} (d : list (string * V)) (key : string) : bool :=
  match dict_get d key with Some _ => true | None => false end.

(** ** The session object and the monad *)

(** The attributes of a [TechnicalTutor]. *)
Record Session : Type := mkSession {
  openai_client : option OpenAIClient;
  conversation_history : list (string * string);
  current_model : string
}.

Record State : Type := mkState {
  session : Session;
  trace : Trace
}.

Inductive Outcome (A : Type) : Type :=
| Ok (a : A)
| Raise (e : exn).
Arguments Ok {A} a.
Arguments Raise {A} e.

Definition M (A : Type) : Type := State -> Outcome A * State.

Definition ret {A} (a : A) : M A := fun st => (Ok a, st).

Definition bind {A B} (m : M A) (k : A -> M B) : M B :=
  fun st =>
    match m st with
    | (Ok a, st') => k a st'
    | (Raise e, st') => (Raise e, st')
    end.

Definition raise {A} (e : exn) : M A := fun st => (Raise e, st).

Declare Scope tutor_scope.
Delimit Scope tutor_scope with tutor.
Notation "x <- m ;; k" := (bind m (fun x => k))
  (at level 61, m at next level, right associativity) : tutor_scope.
Notation "m ;; k" := (bind m (fun _ => k))
  (at level 61, right associativity) : tutor_scope.
Open Scope tutor_scope.

(** [try: body except Exception as e: handler(e)] *)
Definition try_except {A} (body : M A) (handler : exn -> M A) : M A :=
  fun st =>
    match body st with
    | (Raise e, st') =>
        if is_Exception e then handler e st' else (Raise e, st')
    | r => r
    end.

(** [try: body except KeyboardInterrupt: handler] *)
Definition try_except_interrupt {A} (body : M A) (handler : M A) : M A :=
  fun st =>
    match body st with
    | (Raise KeyboardInterrupt, st') => handler st'
    | r => r
    end.

(** [try: body finally: final] *)
Definition try_finally {A} (body : M A) (final : M unit) : M A :=
  fun st =>
    match body st with
    | (r, st') =>
        match final st' with
        | (Ok _, st'') => (r, st'')
        | (Raise e, st'') => (Raise e, st'')
        end
    end.

Definition get_self : M Session := fun st => (Ok (session st), st).

Definition set_self (s : Session) : M unit :=
  fun st => (Ok tt, mkState s (trace st)).

Definition emit (e : Event) : M unit :=
  fun st => (Ok tt, mkState (session st) (trace st ++ [e])).

(** Perform [e] and take the world's answer from [oracle]. *)
Definition call {A} (e : Event) (oracle : Trace -> Reply A) : M A :=
  fun st =>
    let tr := trace st ++ [e] in
    match oracle tr with
    | Returns a => (Ok a, mkState (session st) tr)
    | Raises x => (Raise x, mkState (session st) tr)
    end.

Definition print (text : string) : M unit := emit (EvPrint text).
Definition display_markdown (text : string) : M unit := emit (EvDisplay text).
Definition log (level : LogLevel) (text : string) : M unit :=
  emit (EvLog level text).

(** [d[key]], raising [KeyError] on a missing key. *)
Definition dict_getitem {V} (d : list (string * V)) (key : string) : M V :=
  match dict_get d key with
  | Some v => ret v
  | None => raise (KeyError key)
  end.

(** [l[0]] *)
Definition list_head (l : list string) : M string :=
  match l with
  | x :: _ => ret x
  | [] => raise (IndexError "list index out of range")
  end.

(** ** The methods of [TechnicalTutor] *)

Import Py.
Open Scope string_scope.

(** [for x in l: body(x)] *)
Fixpoint for_each {A} (l : list A) (body : A -> M unit) : M unit :=
  match l with
  | [] => ret tt
  | x :: l' => body x ;; for_each l' body
  end.

(** [for x in l: acc = body(acc, x)], for a loop that builds a local. *)
Fixpoint for_fold {A B} (l : list A) (acc : B) (body : B -> A -> M B) : M B :=
  match l with
  | [] => ret acc
  | x :: l' => acc' <- body acc x ;; for_fold l' acc' body
  end.

Definition set_openai_client (c : option OpenAIClient) : M unit :=
  self <- get_self ;;
  set_self (mkSession c (conversation_history self) (current_model self)).

Definition set_conversation_history (h : list (string * string)) : M unit :=
  self <- get_self ;;
  set_self (mkSession (openai_client self) h (current_model self)).

Definition set_current_model (key : string) : M unit :=
  self <- get_self ;;
  set_self (mkSession (openai_client self) (conversation_history self) key).

(** [any(model_name in model['name'] for model in models)]: lazy, and an
    entry without a name raises when it is reached. *)
Fixpoint any_name_contains (model_name : string)
    (models : list (option string)) : M bool :=
  match models with
  | [] => ret false
  | None :: _ => raise (KeyError "name")
  | Some n :: rest =>
      if contains n model_name then ret true
      else any_name_contains model_name rest
  end.

Definition system_prompt : string :=
  "You are a helpful technical tutor who specializes in explaining:" ++ nl ++
  "        - Python code and programming concepts" ++ nl ++
  "        - Software engineering principles and best practices" ++ nl ++
  "        - Data science techniques and methodologies" ++ nl ++
  "        - Large Language Models (LLMs) and AI concepts" ++ nl ++
  "        - Machine learning algorithms and implementations" ++ nl ++
  "        " ++ nl ++
  "        Your explanations should be:" ++ nl ++
  "        - Clear and detailed but not overly verbose" ++ nl ++
  "        - Include practical examples when helpful" ++ nl ++
  "        - Explain both the " ++ dquote ++ "what" ++ dquote ++ " and the "
    ++ dquote ++ "why" ++ dquote ++ nl ++
  "        - Suitable for someone with basic programming knowledge" ++ nl ++
  "        - Well-structured with proper formatting" ++ nl ++
  "        " ++ nl ++
  "        If code is provided, explain it step by step and mention any best practices or potential improvements.".

Definition welcome_header : string :=
  nl ++ "# 🎓 Interactive AI Technical Tutor" ++ nl ++ nl ++
  "Welcome! I'm here to help you understand Python code, software engineering, data science, and LLMs."
  ++ nl ++ nl ++ "## Available Models:" ++ nl.

Definition welcome_commands : string :=
  nl ++ nl ++ "**Commands**:" ++ nl ++
  "- `!model <name>` - Switch model (gpt/llama)" ++ nl ++
  "- `!history` - Show conversation history" ++ nl ++
  "- `!clear` - Clear conversation history" ++ nl ++
  "- `!save` - Save conversation to file" ++ nl ++
  "- `!quit` or `!exit` - Exit the tutor" ++ nl.

Definition help_text : string :=
  nl ++ "## 📚 Available Commands:" ++ nl ++
  "- `!model <name>` - Switch between models (gpt/llama)" ++ nl ++
  "- `!history` - Show conversation history" ++ nl ++
  "- `!clear` - Clear conversation history" ++ nl ++
  "- `!save` - Save conversation to markdown file" ++ nl ++
  "- `!quit` or `!exit` - Exit the tutor" ++ nl ++
  "- `!help` - Show this help message" ++ nl.

Definition input_prompt : string :=
  "🤔 Please enter your question (or !help for commands): ".

(** One line of the [!history] preview. *)
Definition history_line (i : nat) (q : string) : string :=
  "**" ++ str i ++ ".** " ++ take 100 q
  ++ (if (100 <? String.length q)%nat then "..." else "") ++ nl.

Section Tutor.

Variable w : World.

(** [datetime.now().strftime(format)] *)
Definition now_strftime (format : string) : M string :=
  fun st =>
    let tr := (trace st ++ [EvNow format])%list in
    (Ok (strftime w tr), mkState (session st) tr).

(** [f.write(chunk)] on the file opened as [filename]. *)
Definition f_write (filename chunk : string) : M unit :=
  call (EvFileWrite filename chunk) (fs_write w).

Definition setup_environment : M unit :=
  call EvLoadDotenv (load_dotenv w) ;;
  try_except
    (c <- call EvOpenAIInit (openai_init w) ;;
     set_openai_client (Some c) ;;
     log INFO "✅ OpenAI client initialized")
    (fun e =>
     log WARNING ("⚠️ OpenAI client initialization failed: " ++ exn_str e) ;;
     set_openai_client None) ;;
  try_except
    (call EvOllamaList (ollama_list w) ;;
     log INFO "✅ Ollama connection established")
    (fun e => log WARNING ("⚠️ Ollama connection failed: " ++ exn_str e)).

(** [__init__] *)
Definition init : M unit :=
  setup_environment ;;
  set_conversation_history [] ;;
  set_current_model "llama".

Definition get_system_prompt : M string := ret system_prompt.

Definition test_model_availability (model_key : string) : M bool :=
  match dict_get AVAILABLE_MODELS model_key with
  | None => ret false
  | Some model_info =>
      try_except
        (if provider model_info =? "openai" then
           self <- get_self ;;
           ret (match openai_client self with Some _ => true | None => false end)
         else if provider model_info =? "ollama" then
           models <- call EvOllamaList (ollama_list w) ;;
           any_name_contains (name model_info) models
         else ret false)
        (fun _ => ret false)
  end.

Definition display_welcome : M unit :=
  welcome_text <-
    for_fold AVAILABLE_MODELS welcome_header
      (fun welcome_text '(key, model) =>
         available <- test_model_availability key ;;
         let status := if available then "✅" else "❌" in
         ret (welcome_text ++ "- **" ++ key ++ "**: " ++ description model
              ++ " " ++ status ++ nl)) ;;
  self <- get_self ;;
  current <- dict_getitem AVAILABLE_MODELS (current_model self) ;;
  display_markdown
    (welcome_text ++ nl ++ "**Current model**: " ++ description current
     ++ welcome_commands).

(** [get_user_input], with what the user does at the prompt; [None] is the
    end of standard input. *)
Definition get_user_input (input : option Input) : M string :=
  print (nl ++ repeat_char "=" 60) ;;
  emit (EvPrompt input_prompt) ;;
  match input with
  | Some (Line text) => ret (strip text)
  | Some CtrlC | None =>
      print (nl ++ nl ++ "👋 Goodbye!") ;;
      raise (SystemExit 0)
  end.

Definition save_conversation : M unit :=
  self <- get_self ;;
  match conversation_history self with
  | [] => print "No conversation to save."
  | _ :: _ =>
      timestamp <- now_strftime "%Y%m%d_%H%M%S" ;;
      let filename := "tutor_conversation_" ++ timestamp ++ ".md" in
      try_except
        (call (EvOpen filename) (fs_open w) ;;
         try_finally
           (stamp <- now_strftime "%Y-%m-%d %H:%M:%S" ;;
            f_write filename
              ("# AI Tutor Conversation - " ++ stamp ++ nl ++ nl) ;;
            self <- get_self ;;
            for_each (enumerate 1 (conversation_history self))
              (fun '(i, (question, answer)) =>
                 f_write filename
                   ("## Question " ++ str i ++ nl ++ nl ++ question ++ nl ++ nl) ;;
                 f_write filename
                   ("## Answer " ++ str i ++ nl ++ nl ++ answer ++ nl ++ nl) ;;
                 f_write filename ("---" ++ nl ++ nl)))
           (emit (EvClose filename)) ;;
         print ("✅ Conversation saved to: " ++ filename))
        (fun e => print ("❌ Error saving conversation: " ++ exn_str e))
  end.

(** The body of [elif cmd == 'model'] when an argument is given; [new_model]
    is [parts[1].lower()]. *)
Definition switch_model (new_model : string) : M unit :=
  if dict_mem AVAILABLE_MODELS new_model then
    available <- test_model_availability new_model ;;
    if available then
      set_current_model new_model ;;
      info <- dict_getitem AVAILABLE_MODELS new_model ;;
      print ("✅ Switched to " ++ description info)
    else
      print ("❌ Model " ++ new_model ++ " is not available")
  else
    print ("❌ Unknown model. Available: "
           ++ join ", " (dict_keys AVAILABLE_MODELS)).

Definition handle_command (command : string) : M bool :=
  if negb (startswith command "!") then ret false
  else
    let parts := split (tail command) in
    first <- list_head parts ;;
    let cmd := lower first in
    if (cmd =? "quit") || (cmd =? "exit") then
      print "👋 Goodbye!" ;;
      ret true
    else
      (if cmd =? "help" then
         display_markdown help_text
       else if cmd =? "model" then
         match parts with
         | _ :: second :: _ => switch_model (lower second)
         | _ =>
             self <- get_self ;;
             info <- dict_getitem AVAILABLE_MODELS (current_model self) ;;
             print ("Current model: " ++ description info)
         end
       else if cmd =? "history" then
         self <- get_self ;;
         match conversation_history self with
         | _ :: _ =>
             display_markdown
               (fold_left
                  (fun history_text '(i, (q, _)) =>
                     history_text ++ history_line i q)
                  (enumerate 1 (conversation_history self))
                  ("## 📜 Conversation History:" ++ nl ++ nl))
         | [] => print "No conversation history yet."
         end
       else if cmd =? "clear" then
         set_conversation_history [] ;;
         print "✅ Conversation history cleared"
       else if cmd =? "save" then
         save_conversation
       else
         print ("❌ Unknown command: " ++ cmd
                ++ ". Type !help for available commands.")) ;;
      ret true.

Definition ask_question (question : string) : M (option string) :=
  self <- get_self ;;
  model_info <- dict_getitem AVAILABLE_MODELS (current_model self) ;;
  prompt <- get_system_prompt ;;
  let messages :=
    [ mkMessage "system" prompt;
      mkMessage "user"
        ("Please give a detailed explanation to the following question: "
         ++ question) ] in
  try_except
    (if provider model_info =? "openai" then
       match openai_client self with
       | None =>
           raise (AttributeError "'NoneType' object has no attribute 'chat'")
       | Some _ =>
           call (EvOpenAIChat (name model_info) messages
                   (QArith_base.Qmake 7 10) 2000)
                (openai_chat w)
       end
     else if provider model_info =? "ollama" then
       call (EvOllamaChat (name model_info) messages) (ollama_chat w)
     else ret None)
    (fun e =>
       self <- get_self ;;
       log ERROR ("Error getting response from " ++ current_model self
                  ++ ": " ++ exn_str e) ;;
       print ("❌ Error: " ++ exn_str e) ;;
       ret None).

(** How one pass through the body of [while True] ends. *)
Inductive Ctl : Type := Continue | Break.

(** [if answer:] *)
Definition truthy (answer : option string) : bool :=
  match answer with
  | Some a => negb (is_empty a)
  | None => false
  end.

(** The [try] block of the loop body. *)
Definition turn_body (input : option Input) : M Ctl :=
  question <- get_user_input input ;;
  if is_empty question then
    print "Please enter a question or command." ;;
    ret Continue
  else
    handled <- handle_command question ;;
    if handled then
      if startswith question "!quit" || startswith question "!exit"
      then ret Break
      else ret Continue
    else
      self <- get_self ;;
      info <- dict_getitem AVAILABLE_MODELS (current_model self) ;;
      print ("🤖 Thinking... (using " ++ description info ++ ")") ;;
      answer <- ask_question question ;;
      match answer with
      | Some a =>
          if truthy answer then
            display_markdown a ;;
            self <- get_self ;;
            set_conversation_history
              (conversation_history self ++ [(question, a)])%list ;;
            print (nl ++ "💡 Follow-up question, new question, or command?") ;;
            ret Continue
          else
            print "❌ Sorry, I couldn't get a response. Please try again." ;;
            ret Continue
      | None =>
          print "❌ Sorry, I couldn't get a response. Please try again." ;;
          ret Continue
      end.

(** One pass through the loop body, with its two handlers. *)
Definition turn (input : option Input) : M Ctl :=
  try_except
    (try_except_interrupt
       (turn_body input)
       (print (nl ++ nl ++ "👋 Session interrupted. Goodbye!") ;;
        ret Break))
    (fun e =>
       log ERROR ("Unexpected error: " ++ exn_str e) ;;
       print ("❌ An unexpected error occurred: " ++ exn_str e) ;;
       ret Continue).

(** The [while True] loop over the user's script.  When the script is used
    up, standard input is at its end and [get_user_input] exits. *)
Fixpoint session_loop (inputs : list Input) : M unit :=
  match inputs with
  | [] => turn None ;; ret tt
  | input :: rest =>
      ctl <- turn (Some input) ;;
      match ctl with
      | Break => ret tt
      | Continue => session_loop rest
      end
  end.

Definition run_interactive_session (inputs : list Input) : M unit :=
  display_welcome ;;
  session_loop inputs.


End Tutor.

(** ** Vocabulary of the properties *)

Definition history (st : State) : list (string * string) :=
  conversation_history (session st).

Definition selected (st : State) : string := current_model (session st).

(** The key is one of the registry's. *)
Definition registered (key : string) : Prop :=
  dict_mem AVAILABLE_MODELS key = true.

(** The export block of entry [n], in the words of the specification: a
    level-2 heading [Question n], the question text, a level-2 heading
    [Answer n], the answer text, a horizontal rule. *)
Definition spec_block (n : nat) (question answer : string) : string :=
  "## Question " ++ str n ++ nl ++ nl
  ++ question ++ nl ++ nl
  ++ "## Answer " ++ str n ++ nl ++ nl
  ++ answer ++ nl ++ nl
  ++ "---" ++ nl ++ nl.

(** One block per entry, numbered from 1 in history order. *)
Definition spec_blocks (h : list (string * string)) : list string :=
  map (fun '(n, (question, answer)) => spec_block n question answer)
      (enumerate 1 h).

(** The text of [filename] after the file events of [evs], all of them
    successful: opening for writing truncates, a write appends.  [None] is a
    file that has not been opened. *)
Fixpoint file_text (filename : string) (evs : list Event)
    (text : option string) : option string :=
  match evs with
  | [] => text
  | EvOpen f :: evs' =>
      file_text filename evs' (if f =? filename then Some "" else text)
  | EvFileWrite f chunk :: evs' =>
      file_text filename evs'
        (if f =? filename
         then match text with Some t => Some (t ++ chunk) | None => None end
         else text)
  | _ :: evs' => file_text filename evs' text
  end.

(** The three writes of [save_conversation] for one numbered entry. *)
Definition entry_writes (filename : string)
    (entry : nat * (string * string)) : list Event :=
  let '(i, (question, answer)) := entry in
  [ EvFileWrite filename
      ("## Question " ++ str i ++ nl ++ nl ++ question ++ nl ++ nl);
    EvFileWrite filename
      ("## Answer " ++ str i ++ nl ++ nl ++ answer ++ nl ++ nl);
    EvFileWrite filename ("---" ++ nl ++ nl) ].

(** The blocks one after the other. *)
Definition text_of (blocks : list string) : string :=
  fold_right append "" blocks.

(** The text that a write event carries. *)
Definition chunk_of (e : Event) : string :=
  match e with
  | EvFileWrite _ chunk => chunk
  | _ => ""
  end.

(** The texts written to [filename] among [evs], one per write, in order. *)
Fixpoint writes_to (filename : string) (evs : list Event) : list string :=
  match evs with
  | [] => []
  | EvFileWrite f chunk :: evs' =>
      if f =? filename then chunk :: writes_to filename evs'
      else writes_to filename evs'
  | _ :: evs' => writes_to filename evs'
  end.

(** The name of the export file and the time stamp of its title line, as
    the clock gives them to a [save_conversation] that starts in [st]. *)
Definition export_filename (w : World) (st : State) : string :=
  "tutor_conversation_"
  ++ strftime w (trace st ++ [EvNow "%Y%m%d_%H%M%S"])%list ++ ".md".

Definition export_title (w : World) (st : State) : string :=
  "# AI Tutor Conversation - "
  ++ strftime w
       (trace st
        ++ [EvNow "%Y%m%d_%H%M%S"; EvOpen (export_filename w st);
            EvNow "%Y-%m-%d %H:%M:%S"])%list
  ++ nl ++ nl.

(** No file operation fails. *)
Definition fs_ok (w : World) : Prop :=
  (forall tr, fs_open w tr = Returns tt)
  /\ (forall tr, fs_write w tr = Returns tt).

(** One modification of the history: nothing, one pair appended at the end,
    or a full clear. *)
Definition hist_step (h h' : list (string * string)) : Prop :=
  h' = h \/ (exists q a, h' = (h ++ [(q, a)])%list) \/ h' = [].

(** Any number of such modifications. *)
Inductive hist_steps : list (string * string) -> list (string * string)
    -> Prop :=
| hist_steps_refl h : hist_steps h h
| hist_steps_step h h' h'' :
    hist_steps h h' -> hist_step h' h'' -> hist_steps h h''.

(** The world's answers to the completion calls among [evs], which follow
    the trace [before]. *)
Fixpoint completion_replies (w : World) (before : Trace) (evs : list Event)
    : list (Reply (option string)) :=
  match evs with
  | [] => []
  | e :: evs' =>
      let tr := (before ++ [e])%list in
      match e with
      | EvOpenAIChat _ _ _ _ => openai_chat w tr :: completion_replies w tr evs'
      | EvOllamaChat _ _ => ollama_chat w tr :: completion_replies w tr evs'
      | _ => completion_replies w tr evs'
      end
  end.

(** The number of calls that reach a backend among [evs]. *)
Definition backend_calls (evs : list Event) : nat :=
  List.length (filter is_backend_call evs).

(** What [test_model_availability] computes from the names that
    [ollama.list()] returned. *)
Fixpoint listed (model_name : string) (models : list (option string))
    : option bool :=
  match models with
  | [] => Some false
  | None :: _ => None
  | Some n :: rest =>
      if contains n model_name then Some true else listed model_name rest
  end.

(** The events a computation adds to the trace. *)
Definition new_events (st st' : State) : list Event :=
  skipn (List.length (trace st)) (trace st').

(** A property of computations: whatever the start state, the end state is
    related to it by [R]. *)
Definition respects {A} (R : State -> State -> Prop) (m : M A) : Prop :=
  forall st, R st (snd (m st)).

(** A relation on states that computations can be shown to respect piece by
    piece: a preorder which every single event that satisfies [P] keeps. *)
Class Frame (P : Event -> Prop) (R : State -> State -> Prop) : Prop := {
  frame_refl : forall st, R st st;
  frame_trans : forall st1 st2 st3, R st1 st2 -> R st2 st3 -> R st1 st3;
  frame_event : forall st e,
    P e -> R st (mkState (session st) (trace st ++ [e])%list)
}.

(** The computation changes the trace only, by events that satisfy [P]. *)
Definition emits_only (P : Event -> Prop) (st st' : State) : Prop :=
  session st' = session st
  /\ exists evs, trace st' = (trace st ++ evs)%list /\ Forall P evs.

(** The attributes may change; the trace grows by events that satisfy [P]. *)
Definition trace_grows (P : Event -> Prop) (st st' : State) : Prop :=
  exists evs, trace st' = (trace st ++ evs)%list /\ Forall P evs.

(** The selection is the one of [st] or a registry key. *)
Definition selection_step (st st' : State) : Prop :=
  selected st' = selected st \/ registered (selected st').

(** What a command handler may do to the session: select a registry key,
    clear the history. *)
Definition handler_step (st st' : State) : Prop :=
  selection_step st st'
  /\ (history st' = history st \/ history st' = []).

(** What one turn may do to the session: select a registry key, and modify
    the history once. *)
Definition turn_step (st st' : State) : Prop :=
  selection_step st st' /\ hist_step (history st) (history st').

(** What any number of turns may do. *)
Definition loop_step (st st' : State) : Prop :=
  selection_step st st' /\ hist_steps (history st) (history st').

(** The event is not a call to a completion service. *)
Definition not_completion (e : Event) : Prop := is_completion_call e = false.

(** Two concrete worlds and sessions, used to run the program.  In
    [world_up] both backends answer and the file system works; in
    [world_down] the [.env] file is read, and every backend call and every
    file operation raises. *)
Definition world_up : World :=
  mkWorld (fun _ => Returns tt)
          (fun _ => Returns Client)
          (fun _ => Returns [Some "llama3.2:latest"])
          (fun _ => Returns (Some "A cloud answer."))
          (fun _ => Returns (Some "A local answer."))
          (fun _ => "20240101_120000")
          (fun _ => Returns tt)
          (fun _ => Returns tt).

Definition world_down : World :=
  mkWorld (fun _ => Returns tt)
          (fun _ => Raises (ExternalError "no API key"))
          (fun _ => Raises (ExternalError "connection refused"))
          (fun _ => Raises (ExternalError "connection error"))
          (fun _ => Raises (ExternalError "connection refused"))
          (fun _ => "20240101_120000")
          (fun _ => Raises (ExternalError "permission denied"))
          (fun _ => Raises (ExternalError "disk full")).

Definition fresh_state : State :=
  mkState (mkSession (Some Client) [] "llama") [].

Definition two_exchanges : State :=
  mkState
    (mkSession (Some Client)
       [("what is a list?", "A list is ..."); ("explain recursion", "Recursion is ...")]
       "llama")
    [].

(** The events with which every turn starts: the separator line and the
    prompt. *)
Definition prompt_events : list Event :=
  [EvPrint (nl ++ repeat_char "=" 60); EvPrompt input_prompt].

(** The state in which [ask_question] starts in a question turn that began
    in [st] with the model [info] selected. *)
Definition asking (info : ModelInfo) (st : State) : State :=
  mkState (session st)
    (trace st ++ prompt_events
     ++ [EvPrint ("🤖 Thinking... (using " ++ description info ++ ")")])%list.

Definition no_response : Event :=
  EvPrint "❌ Sorry, I couldn't get a response. Please try again.".

(** The event is not a call to a backend. *)
Definition not_backend (e : Event) : Prop := is_backend_call e = false.

(** The verb of a command, as [handle_command] reads it: the first word
    after the sentinel, in lower case; [None] when there is no word. *)
Definition verb_of (command : string) : option string :=
  match split (tail command) with
  | first :: _ => Some (lower first)
  | [] => None
  end.

(** The claim that a turn on a sentinel-prefixed line makes no backend call
    at all. *)
Definition commands_call_no_backend : Prop :=
  forall (w : World) (text : string) (st : State),
    startswith (strip text) "!" = true ->
    backend_calls (new_events st (snd (turn w (Some (Line text)) st))) = 0.


(** The completion call that [ask_question] makes for [question] with the
    model [info] selected, and the oracle that answers it. *)
Definition chat_messages (question : string) : list message :=
  [ mkMessage "system" system_prompt;
    mkMessage "user"
      ("Please give a detailed explanation to the following question: "
       ++ question) ].

Definition completion_call (info : ModelInfo) (question : string) : Event :=
  if provider info =? "openai"
  then EvOpenAIChat (name info) (chat_messages question)
         (QArith_base.Qmake 7 10) 2000
  else EvOllamaChat (name info) (chat_messages question).

Definition completion_answer (w : World) (info : ModelInfo) (tr : Trace)
    : Reply (option string) :=
  if provider info =? "openai" then openai_chat w tr else ollama_chat w tr.

(** The claim that availability is re-probed on the backend at every
    reference, for the model [key]: every call of
    [test_model_availability] reaches the backend. *)
Definition reprobes (key : string) : Prop :=
  forall (w : World) (st : State),
    1 <= backend_calls
           (new_events st (snd (test_model_availability w key st))).

(** ** Further vocabulary *)

(** The text is empty or white space only. *)
Fixpoint blank (s : string) : bool :=
  match s with
  | EmptyString => true
  | String c s' => isspace c && blank s'
  end.

(** The computation lets no [Exception] escape: whatever it raises is an
    interrupt or an exit. *)
Definition quiet {A} (m : M A) : Prop :=
  forall st e, fst (m st) = Raise e -> is_Exception e = false.

(** The attribute read by [f] is the same before and after. *)
Definition keeps {A} (f : Session -> A) (st st' : State) : Prop :=
  f (session st') = f (session st).

(** The cloud model is selected only while there is a client object. *)
Definition client_ok (st : State) : Prop :=
  selected st = "gpt" -> openai_client (session st) <> None.

(** The client object stays, and the selection stays or is one that the
    client object allows. *)
Definition client_step (st st' : State) : Prop :=
  openai_client (session st') = openai_client (session st)
  /\ (selected st' = selected st \/ client_ok st').

(** What the body of the [with] block of [save_conversation] may do: read
    the clock and write to the file it has opened. *)
Definition export_event (filename : string) (e : Event) : Prop :=
  match e with
  | EvFileWrite f _ => f = filename
  | EvNow _ => True
  | _ => False
  end.

(** The lines of the [!history] preview. *)
Definition preview_lines (h : list (string * string)) : list string :=
  map (fun '(i, (q, _)) => history_line i q) (enumerate 1 h).

(** A world in which the user interrupts every completion call. *)
Definition world_interrupted : World :=
  mkWorld (fun _ => Returns tt)
          (fun _ => Returns Client)
          (fun _ => Returns [Some "llama3.2:latest"])
          (fun _ => Raises KeyboardInterrupt)
          (fun _ => Raises KeyboardInterrupt)
          (fun _ => "20240101_120000")
          (fun _ => Returns tt)
          (fun _ => Returns tt).

(** Every stored exchange is a real one: the question is not empty and is
    not a command, and the answer is not empty. *)
Definition entries_ok (s : Session) : Prop :=
  Forall (fun entry : string * string =>
            is_empty (fst entry) = false
            /\ startswith (fst entry) "!" = false
            /\ is_empty (snd entry) = false)
         (conversation_history s).

(** The event is not a completion call to the cloud service. *)
Definition not_cloud_call (e : Event) : Prop :=
  match e with
  | EvOpenAIChat _ _ _ _ => False
  | _ => True
  end.

(** Without a client object, nothing is sent to the cloud service; and the
    client object stays as it is. *)
Definition no_client_no_cloud (st st' : State) : Prop :=
  openai_client (session st') = openai_client (session st)
  /\ (openai_client (session st) = None ->
      exists evs,
        trace st' = (trace st ++ evs)%list /\ Forall not_cloud_call evs).

(** The mark that the welcome text puts after a model. *)
Definition status_mark (available : bool) : string :=
  if available then "✅" else "❌".

(** * Proofs *)

(** ** Strings and lists *)

Lemma append_assoc (a b c : string) : (a ++ b) ++ c = a ++ (b ++ c).
Proof.
  induction a as [|ch a IH]; simpl; [reflexivity | now rewrite IH].
Qed.

Lemma append_empty_r (a : string) : a ++ "" = a.
Proof.
  induction a as [|ch a IH]; simpl; [reflexivity | now rewrite IH].
Qed.

Lemma enumerate_length {A} (l : list A) (start : nat) :
  List.length (enumerate start l) = List.length l.
Proof.
  revert start; induction l as [|x l IH]; intros start; simpl;
    [reflexivity | now rewrite IH].
Qed.

Lemma enumerate_nth_error {A} (l : list A) (start n : nat) (x : A) :
  nth_error l n = Some x ->
  nth_error (enumerate start l) n = Some (start + n, x).
Proof.
  revert start n; induction l as [|y l IH]; intros start [|n] Hn;
    simpl in *; try discriminate.
  - inversion Hn; subst. now rewrite Nat.add_0_r.
  - rewrite (IH (S start) n Hn). f_equal. f_equal. lia.
Qed.

Lemma new_events_app (st st' : State) (evs : list Event) :
  trace st' = (trace st ++ evs)%list -> new_events st st' = evs.
Proof.
  intros H. unfold new_events. rewrite H.
  rewrite skipn_app, skipn_all, Nat.sub_diag. reflexivity.
Qed.

Lemma hist_steps_trans h1 h2 h3 :
  hist_steps h1 h2 -> hist_steps h2 h3 -> hist_steps h1 h3.
Proof.
  intros H12 H23. induction H23 as [|h2 h3 h4 _ IH Hs]; [assumption|].
  eapply hist_steps_step; [apply IH; assumption | assumption].
Qed.

Lemma hist_steps_one h h' : hist_step h h' -> hist_steps h h'.
Proof. intros H. eapply hist_steps_step; [apply hist_steps_refl | exact H]. Qed.

(** ** The monad *)

Lemma bind_ok {A B} (m : M A) (k : A -> M B) st a st1 :
  m st = (Ok a, st1) -> bind m k st = k a st1.
Proof. intros H. unfold bind. now rewrite H. Qed.

Section Respects.

Context {P : Event -> Prop} {R : State -> State -> Prop} `{!Frame P R}.

Lemma respects_ret {A} (a : A) : respects R (ret a).
Proof. intros st. apply frame_refl. Qed.

Lemma respects_raise {A} (e : exn) : respects R (@raise A e).
Proof. intros st. apply frame_refl. Qed.

Lemma respects_bind {A B} (m : M A) (k : A -> M B) :
  respects R m -> (forall a, respects R (k a)) -> respects R (bind m k).
Proof.
  intros Hm Hk st. unfold bind. specialize (Hm st).
  destruct (m st) as [[a|e] st1]; simpl in *; [|assumption].
  eapply frame_trans; [exact Hm | apply Hk].
Qed.

Lemma respects_try_except {A} (body : M A) (handler : exn -> M A) :
  respects R body -> (forall e, respects R (handler e)) ->
  respects R (try_except body handler).
Proof.
  intros Hb Hh st. unfold try_except. specialize (Hb st).
  destruct (body st) as [[a|e] st1]; simpl in *; [assumption|].
  destruct (is_Exception e); simpl; [|assumption].
  eapply frame_trans; [exact Hb | apply Hh].
Qed.

Lemma respects_try_except_interrupt {A} (body handler : M A) :
  respects R body -> respects R handler ->
  respects R (try_except_interrupt body handler).
Proof.
  intros Hb Hh st. unfold try_except_interrupt. specialize (Hb st).
  destruct (body st) as [[a|e] st1]; simpl in *; [assumption|].
  destruct e; simpl; try assumption.
  eapply frame_trans; [exact Hb | apply Hh].
Qed.

Lemma respects_try_finally {A} (body : M A) (final : M unit) :
  respects R body -> respects R final ->
  respects R (try_finally body final).
Proof.
  intros Hb Hf st. unfold try_finally. specialize (Hb st).
  destruct (body st) as [r st1]; simpl in *. specialize (Hf st1).
  destruct (final st1) as [[u|e] st2]; simpl in *;
    (eapply frame_trans; [exact Hb | exact Hf]).
Qed.

Lemma respects_get_self : respects R get_self.
Proof. intros st. apply frame_refl. Qed.

Lemma respects_emit (e : Event) : P e -> respects R (emit e).
Proof. intros He st. apply frame_event, He. Qed.

Lemma respects_call {A} (e : Event) (oracle : Trace -> Reply A) :
  P e -> respects R (call e oracle).
Proof.
  intros He st. unfold call.
  destruct (oracle _); simpl; apply frame_event, He.
Qed.

Lemma respects_now_strftime (w : World) (format : string) :
  P (EvNow format) -> respects R (now_strftime w format).
Proof. intros He st. apply frame_event, He. Qed.

Lemma respects_dict_getitem {V} (d : list (string * V)) (key : string) :
  respects R (dict_getitem d key).
Proof.
  unfold dict_getitem. destruct (dict_get d key);
    [apply respects_ret | apply respects_raise].
Qed.

Lemma respects_list_head (l : list string) : respects R (list_head l).
Proof. destruct l; [apply respects_raise | apply respects_ret]. Qed.

Lemma respects_for_each {A} (l : list A) (body : A -> M unit) :
  (forall x, respects R (body x)) -> respects R (for_each l body).
Proof.
  intros Hb. induction l as [|x l IH]; simpl;
    [apply respects_ret | apply respects_bind; [apply Hb | intros _; exact IH]].
Qed.

Lemma respects_for_fold {A B} (l : list A) (acc : B) (body : B -> A -> M B) :
  (forall b x, respects R (body b x)) -> respects R (for_fold l acc body).
Proof.
  intros Hb. revert acc. induction l as [|x l IH]; intros acc; simpl;
    [apply respects_ret | apply respects_bind; [apply Hb | intros b; apply IH]].
Qed.

Lemma respects_any_name_contains (model_name : string)
    (models : list (option string)) :
  respects R (any_name_contains model_name models).
Proof.
  induction models as [|[n|] rest IH]; simpl;
    [apply respects_ret | | apply respects_raise].
  destruct (contains n model_name); [apply respects_ret | exact IH].
Qed.

End Respects.

Lemma respects_bind_ret {A B} (R : State -> State -> Prop) (a : A)
    (k : A -> M B) :
  respects R (k a) -> respects R (bind (ret a) k).
Proof. intros H st. exact (H st). Qed.

Lemma respects_weaken {A} (R1 R2 : State -> State -> Prop) (m : M A) :
  (forall st st', R1 st st' -> R2 st st') -> respects R1 m -> respects R2 m.
Proof. intros H Hm st. apply H, Hm. Qed.

#[export] Instance emits_only_frame (P : Event -> Prop) :
  Frame P (emits_only P).
Proof.
  split.
  - intros st. split; [reflexivity|]. exists []. split; [|constructor].
    now rewrite app_nil_r.
  - intros st1 st2 st3 [Hs1 (evs1 & Ht1 & HP1)] [Hs2 (evs2 & Ht2 & HP2)].
    split; [congruence|]. exists (evs1 ++ evs2)%list. split.
    + rewrite Ht2, Ht1. now rewrite app_assoc.
    + apply Forall_app. now split.
  - intros st e He. split; [reflexivity|]. exists [e]. simpl. split;
      [reflexivity | now constructor].
Qed.

#[export] Instance trace_grows_frame (P : Event -> Prop) :
  Frame P (trace_grows P).
Proof.
  split.
  - intros st. exists []. split; [|constructor]. now rewrite app_nil_r.
  - intros st1 st2 st3 (evs1 & Ht1 & HP1) (evs2 & Ht2 & HP2).
    exists (evs1 ++ evs2)%list. split.
    + rewrite Ht2, Ht1. now rewrite app_assoc.
    + apply Forall_app. now split.
  - intros st e He. exists [e]. simpl. split;
      [reflexivity | now constructor].
Qed.

Lemma selection_step_refl st : selection_step st st.
Proof. now left. Qed.

Lemma selection_step_trans st1 st2 st3 :
  selection_step st1 st2 -> selection_step st2 st3 -> selection_step st1 st3.
Proof.
  unfold selection_step. intros [H1|H1] [H2|H2]; try (now right).
  - left. congruence.
  - right. now rewrite H2.
Qed.

#[export] Instance loop_step_frame : Frame (fun _ => True) loop_step.
Proof.
  split.
  - intros st. split; [apply selection_step_refl | apply hist_steps_refl].
  - intros st1 st2 st3 [Hr1 Hh1] [Hr2 Hh2]. split.
    + eapply selection_step_trans; eassumption.
    + eapply hist_steps_trans; eassumption.
  - intros st e _. split; [now left | apply hist_steps_refl].
Qed.

#[export] Instance handler_step_frame : Frame (fun _ => True) handler_step.
Proof.
  split.
  - intros st. split; [apply selection_step_refl | now left].
  - intros st1 st2 st3 [Hr1 Hh1] [Hr2 Hh2]. split.
    + eapply selection_step_trans; eassumption.
    + destruct Hh2 as [->|H2]; [assumption | now right].
  - intros st e _. split; now left.
Qed.

Lemma emits_only_handler_step (P : Event -> Prop) st st' :
  emits_only P st st' -> handler_step st st'.
Proof.
  intros [Hs _]. unfold handler_step, selection_step, selected, history.
  rewrite Hs. split; now left.
Qed.

Lemma emits_only_loop_step (P : Event -> Prop) st st' :
  emits_only P st st' -> loop_step st st'.
Proof.
  intros [Hs _]. unfold loop_step, selection_step, selected, history.
  rewrite Hs. split; [now left | apply hist_steps_refl].
Qed.

Lemma turn_step_loop_step st st' : turn_step st st' -> loop_step st st'.
Proof. intros [H1 H2]. split; [exact H1 | now apply hist_steps_one]. Qed.

Lemma trace_grows_set_self (P : Event -> Prop) (s : Session) :
  respects (trace_grows P) (set_self s).
Proof. intros st. exists []. simpl. split; [now rewrite app_nil_r | constructor]. Qed.

(** Discharge a [respects] goal by following the structure of the
    computation. *)
Ltac respects_step :=
  match goal with
  | |- respects _ (bind _ _) => apply respects_bind; [|intros ?]
  | |- respects _ (ret _) => apply respects_ret
  | |- respects _ (raise _) => apply respects_raise
  | |- respects _ get_self => apply respects_get_self
  | |- respects _ (try_except _ _) => apply respects_try_except; [|intros ?]
  | |- respects _ (try_except_interrupt _ _) =>
      apply respects_try_except_interrupt
  | |- respects _ (try_finally _ _) => apply respects_try_finally
  | |- respects _ (emit _) => apply respects_emit; try exact I; try reflexivity
  | |- respects _ (print _) => apply respects_emit; try exact I; try reflexivity
  | |- respects _ (display_markdown _) =>
      apply respects_emit; try exact I; try reflexivity
  | |- respects _ (log _ _) => apply respects_emit; try exact I; try reflexivity
  | |- respects _ (call _ _) => apply respects_call; try exact I; try reflexivity
  | |- respects _ (f_write _ _ _) =>
      apply respects_call; try exact I; try reflexivity
  | |- respects _ (now_strftime _ _) =>
      apply respects_now_strftime; try exact I; try reflexivity
  | |- respects _ (dict_getitem _ _) => apply respects_dict_getitem
  | |- respects _ (list_head _) => apply respects_list_head
  | |- respects _ (any_name_contains _ _) => apply respects_any_name_contains
  | |- respects _ (for_each _ _) => apply respects_for_each; intros ?
  | |- respects _ (for_fold _ _ _) => apply respects_for_fold; intros ? ?
  | |- respects (trace_grows _) (set_self _) => apply trace_grows_set_self
  | |- respects _ (if ?b then _ else _) => destruct b
  | |- respects _ (match ?x with _ => _ end) => destruct x
  | |- respects _ (let '(_, _) := ?x in _) => destruct x
  end.

Ltac respects_auto := repeat respects_step.

(** ** The methods, relation by relation *)

Lemma respects_test_model_availability {P R} `{!Frame P R}
    (w : World) (key : string) :
  P EvOllamaList -> respects R (test_model_availability w key).
Proof.
  intros HP. unfold test_model_availability. respects_auto. exact HP.
Qed.

Lemma handle_command_no_completion (w : World) (command : string) :
  respects (trace_grows not_completion) (handle_command w command).
Proof.
  unfold handle_command, switch_model, save_conversation,
    test_model_availability, set_conversation_history, set_current_model.
  respects_auto.
Qed.

(** On a sentinel-prefixed input the handler never answers [False]. *)
Lemma handle_command_sentinel (w : World) (command : string) (st : State) :
  startswith command "!" = true ->
  fst (handle_command w command st) <> Ok false.
Proof.
  intros Hs. unfold handle_command. rewrite Hs. simpl. unfold bind.
  destruct (list_head _ st) as [[first|e] st1]; simpl; [|discriminate].
  destruct (_ || _); simpl.
  - unfold print, emit. simpl. discriminate.
  - match goal with |- context [?m st1] =>
      destruct (m st1) as [[u|e] st2] end; simpl; discriminate.
Qed.

Lemma get_user_input_line (text : string) (st : State) :
  get_user_input (Some (Line text)) st
  = (Ok (strip text),
     mkState (session st)
       (trace st ++ [EvPrint (nl ++ repeat_char "=" 60);
                     EvPrompt input_prompt])%list).
Proof.
  unfold get_user_input, bind, print, emit, ret. simpl.
  now rewrite <- app_assoc.
Qed.

Lemma startswith_not_empty (s p : string) :
  startswith s p = true -> is_empty p = false -> is_empty s = false.
Proof. destruct s, p; simpl; intros; congruence. Qed.

(** A turn on a sentinel-prefixed line adds to the trace only events of a
    kind [P] that the handler keeps to, when the loop's own prints, prompts
    and log records are of that kind. *)
Lemma turn_sentinel_trace_grows (P : Event -> Prop) (w : World)
    (text : string) (st : State) :
  (forall t, P (EvPrint t)) -> (forall p, P (EvPrompt p)) ->
  (forall l t, P (EvLog l t)) ->
  respects (trace_grows P) (handle_command w (strip text)) ->
  startswith (strip text) "!" = true ->
  trace_grows P st (snd (turn w (Some (Line text)) st)).
Proof.
  intros Hprint Hprompt Hlog Hhandler Hs.
  pose proof (get_user_input_line text st) as Hget.
  set (st2 := mkState _ _) in Hget.
  assert (H02 : trace_grows P st st2).
  { exists [EvPrint (nl ++ repeat_char "=" 60); EvPrompt input_prompt].
    split; [reflexivity | repeat constructor; auto]. }
  pose proof (Hhandler st2) as H23.
  pose proof (handle_command_sentinel w (strip text) st2 Hs) as Hb.
  unfold turn, try_except, try_except_interrupt, turn_body.
  rewrite (bind_ok _ _ _ _ _ Hget).
  rewrite (startswith_not_empty _ _ Hs eq_refl).
  unfold bind at 1.
  destruct (handle_command w (strip text) st2) as [[[|]|e] st3];
    simpl in H23, Hb.
  - destruct (_ || _); simpl; eapply frame_trans; eassumption.
  - congruence.
  - assert (H03 : trace_grows P st st3)
      by (eapply frame_trans; eassumption).
    destruct e; cbn [is_Exception].
    1-4: eapply frame_trans; [exact H03|];
      match goal with |- trace_grows _ ?s (snd (?m ?s)) =>
        generalize s; change (respects (trace_grows P) m)
      end; respects_auto; auto.
    + simpl. eapply frame_trans; [exact H03|].
      apply (frame_event (P := P)). auto.
    + simpl. exact H03.
Qed.

(** Only the verb [model] can make the handler reach a backend. *)
Lemma handle_command_no_backend (w : World) (command : string) :
  verb_of command <> Some "model" ->
  respects (trace_grows not_backend) (handle_command w command).
Proof.
  unfold verb_of, handle_command. intros Hv.
  destruct (negb (startswith command "!")); [apply respects_ret|].
  destruct (split (tail command)) as [|first parts];
    [intros st; exact (@frame_refl _ (trace_grows not_backend) _ st)|].
  cbn [list_head]. apply respects_bind_ret. cbv zeta.
  destruct (String.eqb_spec (lower first) "model") as [E|_];
    [now rewrite E in Hv|].
  unfold save_conversation, set_conversation_history. respects_auto.
Qed.

(** C3, as claimed, fails in its gloss that the turn makes no backend call:
    the turn of [!model llama] calls [ollama.list()] once. *)
Lemma C3_model_command_probes_backend :
  startswith (strip "!model llama") "!" = true
  /\ backend_calls
       (new_events fresh_state
          (snd (turn world_up (Some (Line "!model llama")) fresh_state)))
     = 1
  /\ ~ commands_call_no_backend.
Proof.
  assert (H : backend_calls
       (new_events fresh_state
          (snd (turn world_up (Some (Line "!model llama")) fresh_state)))
     = 1) by reflexivity.
  split; [reflexivity|]. split; [exact H|].
  intros Hc.
  specialize (Hc world_up "!model llama" fresh_state eq_refl).
  rewrite H in Hc. discriminate Hc.
Qed.

(** C3, amended.  An input line that, as read, starts with the sentinel is
    handled by the command handler, which never answers [False] for it, and
    the turn adds no completion call to the trace, whatever the verb.  Unless
    the verb is [model], whose availability test may call [ollama.list()],
    the turn makes no backend call of any kind. *)
Theorem C3_command_never_forwarded (w : World) (text : string) (st : State) :
  startswith (strip text) "!" = true ->
  (forall st0, fst (handle_command w (strip text) st0) <> Ok false)
  /\ exists evs,
       trace (snd (turn w (Some (Line text)) st)) = (trace st ++ evs)%list
       /\ Forall (fun e => is_completion_call e = false) evs
       /\ (verb_of (strip text) <> Some "model" ->
           Forall (fun e => is_backend_call e = false) evs).
Proof.
  intros Hs. split; [intros st0; now apply handle_command_sentinel|].
  destruct (turn_sentinel_trace_grows not_completion w text st)
    as (evs & Htr & Hevs); try reflexivity; try assumption.
  { apply handle_command_no_completion. }
  exists evs. split; [exact Htr|]. split; [exact Hevs|].
  intros Hv.
  destruct (turn_sentinel_trace_grows not_backend w text st)
    as (evs' & Htr' & Hevs'); try reflexivity; try assumption.
  { now apply handle_command_no_backend. }
  rewrite Htr in Htr'. apply app_inv_head in Htr'. now subst evs'.
Qed.

Lemma C3_command_never_forwarded_witness :
  startswith (strip "!frobnicate now") "!" = true
  /\ verb_of (strip "!frobnicate now") <> Some "model"
  /\ exists evs,
       trace (snd (turn world_up (Some (Line "!frobnicate now")) fresh_state))
       = (trace fresh_state ++ evs)%list
       /\ Forall (fun e => is_completion_call e = false) evs
       /\ Forall (fun e => is_backend_call e = false) evs.
Proof.
  assert (Hv : verb_of (strip "!frobnicate now") <> Some "model")
    by (vm_compute; discriminate).
  split; [reflexivity|]. split; [exact Hv|].
  destruct (proj2 (C3_command_never_forwarded world_up "!frobnicate now"
                     fresh_state eq_refl)) as (evs & Htr & Hc & Hb).
  exists evs. split; [exact Htr|]. split; [exact Hc | exact (Hb Hv)].
Defined.

(** ** Exporting the history *)

Lemma call_returns {A} (e : Event) (oracle : Trace -> Reply A) st a :
  oracle (trace st ++ [e])%list = Returns a ->
  call e oracle st = (Ok a, mkState (session st) (trace st ++ [e])%list).
Proof. intros H. unfold call. now rewrite H. Qed.

Lemma try_finally_emit {A} (body : M A) (e : Event) st r st1 :
  body st = (r, st1) ->
  try_finally body (emit e) st
  = (r, mkState (session st1) (trace st1 ++ [e])%list).
Proof. intros H. unfold try_finally. rewrite H. reflexivity. Qed.

Lemma for_each_entry_writes (w : World) (filename : string) :
  fs_ok w ->
  forall (l : list (nat * (string * string))) (st : State),
    for_each l
      (fun '(i, (question, answer)) =>
         f_write w filename
           ("## Question " ++ str i ++ nl ++ nl ++ question ++ nl ++ nl) ;;
         f_write w filename
           ("## Answer " ++ str i ++ nl ++ nl ++ answer ++ nl ++ nl) ;;
         f_write w filename ("---" ++ nl ++ nl)) st
    = (Ok tt,
       mkState (session st)
         (trace st ++ flat_map (entry_writes filename) l)%list).
Proof.
  intros [_ Hw] l. induction l as [|[i [q a]] l IH]; intros st.
  - simpl. unfold ret. rewrite app_nil_r. now destruct st.
  - cbn [for_each flat_map entry_writes].
    unfold f_write at 1 2 3.
    erewrite bind_ok; [|erewrite bind_ok; [|apply call_returns, Hw]].
    2: { erewrite bind_ok; [|apply call_returns, Hw].
         apply call_returns, Hw. }
    rewrite IH. cbn [session trace]. f_equal. f_equal.
    now rewrite <- !app_assoc.
Qed.

Lemma file_text_entry_writes (filename : string)
    (l : list (nat * (string * string))) (rest : list Event) (t : string) :
  file_text filename (flat_map (entry_writes filename) l ++ rest) (Some t)
  = file_text filename rest
      (Some (t ++ text_of
                    (map (fun '(n, (question, answer)) =>
                            spec_block n question answer) l))).
Proof.
  revert t. induction l as [|[i [q a]] l IH]; intros t.
  - simpl. now rewrite append_empty_r.
  - cbn [flat_map entry_writes map text_of fold_right app file_text].
    rewrite !String.eqb_refl. rewrite IH. f_equal. f_equal.
    unfold spec_block, text_of. now rewrite !append_assoc.
Qed.

Lemma spec_blocks_nth (h : list (string * string)) (n : nat) (q a : string) :
  nth_error h n = Some (q, a) ->
  nth_error (spec_blocks h) n = Some (spec_block (S n) q a).
Proof.
  intros H. unfold spec_blocks.
  rewrite nth_error_map, (enumerate_nth_error h 1 n (q, a) H). reflexivity.
Qed.

Lemma writes_to_entry_writes (filename : string)
    (l : list (nat * (string * string))) (rest : list Event) :
  List.length (writes_to filename (flat_map (entry_writes filename) l ++ rest))
  = 3 * List.length l + List.length (writes_to filename rest).
Proof.
  induction l as [|[i [q a]] l IH]; [reflexivity|].
  cbn [flat_map entry_writes app writes_to List.length].
  rewrite !String.eqb_refl. cbn [List.length]. rewrite IH. lia.
Qed.

(** C1. With a non-empty history and a file system that accepts the
    operations, [save_conversation] succeeds and does exactly this: it reads
    the clock, opens the file named after that reading, reads the clock
    again, writes the title line with that second reading, then for each
    history entry, in history order and numbered from 1, the three writes
    that make up the block of the specification for that entry (heading
    [Question n], the question, heading [Answer n], the answer, a rule),
    then closes the file and reports.  So the file holds the title line
    followed by exactly one block per entry: the writes after the title are
    three times the history length, the text of the file is the title and
    the blocks of the specification, one after the other, and block [n] is
    the one of entry [n]. *)
Theorem C1_export_one_block_per_entry (w : World) (st : State) :
  history st <> [] ->
  fs_ok w ->
  exists evs,
    evs
    = ([EvNow "%Y%m%d_%H%M%S"; EvOpen (export_filename w st);
        EvNow "%Y-%m-%d %H:%M:%S";
        EvFileWrite (export_filename w st) (export_title w st)]
       ++ flat_map (entry_writes (export_filename w st))
                   (enumerate 1 (history st))
       ++ [EvClose (export_filename w st);
           EvPrint ("✅ Conversation saved to: " ++ export_filename w st)])%list
    /\ save_conversation w st
       = (Ok tt, mkState (session st) (trace st ++ evs)%list)
    /\ file_text (export_filename w st) evs None
       = Some (export_title w st ++ text_of (spec_blocks (history st)))
    /\ List.length (writes_to (export_filename w st) evs)
       = 1 + 3 * List.length (history st)
    /\ (forall n q a,
          text_of (map chunk_of
                     (entry_writes (export_filename w st) (n, (q, a))))
          = spec_block n q a)
    /\ List.length (spec_blocks (history st)) = List.length (history st)
    /\ forall n q a,
         nth_error (history st) n = Some (q, a) ->
         nth_error (spec_blocks (history st)) n
         = Some (spec_block (S n) q a).
Proof.
  intros Hne Hfs.
  set (tr1 := (trace st ++ [EvNow "%Y%m%d_%H%M%S"])%list).
  set (filename := export_filename w st).
  set (tr2 := (tr1 ++ [EvOpen filename])%list).
  set (tr3 := (tr2 ++ [EvNow "%Y-%m-%d %H:%M:%S"])%list).
  set (title := export_title w st).
  assert (Htitle : title
                   = "# AI Tutor Conversation - " ++ strftime w tr3 ++ nl ++ nl).
  { unfold title, export_title, tr3, tr2, tr1. fold filename.
    now rewrite <- !app_assoc. }
  eexists. split; [reflexivity|]. split; [|split; [|split; [|split; [|split]]]].
  - unfold save_conversation. unfold bind at 1. cbn [get_self].
    unfold history in *.
    destruct (conversation_history (session st)) as [|x h] eqn:Hh;
      [congruence|].
    unfold bind at 1. cbn [now_strftime session trace].
    fold tr1. change ("tutor_conversation_" ++ strftime w tr1 ++ ".md")
      with filename.
    destruct Hfs as [Ho Hw0].
    unfold try_except.
    rewrite (bind_ok _ _ _ tt _ (call_returns _ _ _ _ (Ho _))).
    cbv beta. cbn [session trace]. fold tr2.
    match goal with |- context [bind (try_finally ?b _) _ ?s] =>
      eassert (Hbody : b s = (Ok tt, _))
    end.
    { unfold bind at 1. cbn [now_strftime session trace]. fold tr3.
      rewrite <- Htitle.
      unfold f_write at 1.
      rewrite (bind_ok _ _ _ tt _ (call_returns _ _ _ _ (Hw0 _))).
      cbv beta. unfold bind at 1. cbn [get_self session trace]. rewrite Hh.
      apply (for_each_entry_writes w filename (conj Ho Hw0)). }
    rewrite (bind_ok _ _ _ _ _ (try_finally_emit _ _ _ _ _ Hbody)).
    cbn [print emit session trace]. f_equal. f_equal.
    unfold tr3, tr2, tr1. rewrite <- !app_assoc. reflexivity.
  - cbn [app file_text]. rewrite !String.eqb_refl.
    rewrite file_text_entry_writes. cbn [file_text].
    unfold spec_blocks. cbn [append]. reflexivity.
  - cbn [app writes_to]. rewrite !String.eqb_refl. cbn [List.length].
    rewrite writes_to_entry_writes, enumerate_length. cbn [writes_to List.length].
    lia.
  - intros n q a. cbn [entry_writes map chunk_of text_of fold_right].
    unfold spec_block. now rewrite !append_assoc, append_empty_r.
  - unfold spec_blocks. now rewrite length_map, enumerate_length.
  - apply spec_blocks_nth.
Qed.

Lemma C1_export_one_block_per_entry_witness :
  history two_exchanges <> []
  /\ fs_ok world_up
  /\ save_conversation world_up two_exchanges
     = (Ok tt,
        mkState (session two_exchanges)
          [EvNow "%Y%m%d_%H%M%S";
           EvOpen "tutor_conversation_20240101_120000.md";
           EvNow "%Y-%m-%d %H:%M:%S";
           EvFileWrite "tutor_conversation_20240101_120000.md"
             ("# AI Tutor Conversation - 20240101_120000" ++ nl ++ nl);
           EvFileWrite "tutor_conversation_20240101_120000.md"
             ("## Question 1" ++ nl ++ nl ++ "what is a list?" ++ nl ++ nl);
           EvFileWrite "tutor_conversation_20240101_120000.md"
             ("## Answer 1" ++ nl ++ nl ++ "A list is ..." ++ nl ++ nl);
           EvFileWrite "tutor_conversation_20240101_120000.md"
             ("---" ++ nl ++ nl);
           EvFileWrite "tutor_conversation_20240101_120000.md"
             ("## Question 2" ++ nl ++ nl ++ "explain recursion" ++ nl ++ nl);
           EvFileWrite "tutor_conversation_20240101_120000.md"
             ("## Answer 2" ++ nl ++ nl ++ "Recursion is ..." ++ nl ++ nl);
           EvFileWrite "tutor_conversation_20240101_120000.md"
             ("---" ++ nl ++ nl);
           EvClose "tutor_conversation_20240101_120000.md";
           EvPrint "✅ Conversation saved to: tutor_conversation_20240101_120000.md"]).
Proof.
  assert (H1 : history two_exchanges <> []) by (simpl; discriminate).
  assert (H2 : fs_ok world_up) by (split; intros tr; reflexivity).
  split; [exact H1|]. split; [exact H2|].
  destruct (C1_export_one_block_per_entry world_up two_exchanges H1 H2)
    as (evs & Hevs & Hsave & _).
  rewrite Hsave, Hevs. reflexivity.
Defined.

Lemma save_conversation_empty (w : World) (st : State) :
  history st = [] ->
  save_conversation w st
  = (Ok tt,
     mkState (session st)
       (trace st ++ [EvPrint "No conversation to save."])%list).
Proof.
  intros H. unfold save_conversation, bind, get_self.
  unfold history in H. rewrite H. reflexivity.
Qed.

Lemma handle_command_clear (w : World) (st : State) :
  handle_command w "!clear" st
  = (Ok true,
     mkState (mkSession (openai_client (session st)) []
                        (current_model (session st)))
       (trace st ++ [EvPrint "✅ Conversation history cleared"])%list).
Proof. reflexivity. Qed.

Lemma handle_command_save (w : World) (st : State) :
  handle_command w "!save" st
  = (let '(r, st') := save_conversation w st in
     match r with Ok _ => (Ok true, st') | Raise e => (Raise e, st') end).
Proof.
  change (handle_command w "!save" st)
    with (bind (save_conversation w) (fun _ => ret true) st).
  unfold bind. destruct (save_conversation w st) as [[u|e] st']; reflexivity.
Qed.

(** C4. On an empty history [save_conversation] only reports that there is
    nothing to save: the single new event is that message, so no file is
    opened or written.  In particular, from every state, [!clear] empties
    the history and an immediately following [!save] gives that report. *)
Theorem C4_export_empty_history_fails (w : World) (st : State)
    (client : option OpenAIClient) (model : string) (tr : Trace) :
  save_conversation w (mkState (mkSession client [] model) tr)
  = (Ok tt,
     mkState (mkSession client [] model)
       (tr ++ [EvPrint "No conversation to save."])%list)
  /\ exists st1,
       handle_command w "!clear" st = (Ok true, st1)
       /\ history st1 = []
       /\ handle_command w "!save" st1
          = (Ok true,
             mkState (session st1)
               (trace st1 ++ [EvPrint "No conversation to save."])%list).
Proof.
  split; [reflexivity|].
  eexists. split; [apply handle_command_clear|]. split; [reflexivity|].
  rewrite handle_command_save, save_conversation_empty; reflexivity.
Qed.

(** ** What the availability test computes *)

Lemma any_name_contains_listed (model_name : string)
    (models : list (option string)) (st : State) :
  any_name_contains model_name models st
  = (match listed model_name models with
     | Some b => Ok b
     | None => Raise (KeyError "name")
     end, st).
Proof.
  induction models as [|[n|] rest IH]; cbn [any_name_contains listed];
    [reflexivity| |reflexivity].
  destruct (contains n model_name); [reflexivity | exact IH].
Qed.

Lemma test_model_availability_llama (w : World) (st : State) :
  test_model_availability w "llama" st
  = (match ollama_list w (trace st ++ [EvOllamaList])%list with
     | Returns models =>
         match listed MODEL_LLAMA models with
         | Some b => Ok b
         | None => Ok false
         end
     | Raises e => if is_Exception e then Ok false else Raise e
     end,
     mkState (session st) (trace st ++ [EvOllamaList])%list).
Proof.
  unfold test_model_availability. cbn [dict_get AVAILABLE_MODELS].
  change ("gpt" =? "llama") with false. change ("llama" =? "llama") with true.
  cbv iota. cbn [provider name].
  change ("ollama" =? "openai") with false.
  change ("ollama" =? "ollama") with true. cbv iota.
  unfold try_except, bind, call.
  destruct (ollama_list w (trace st ++ [EvOllamaList])%list) as [models|e].
  - rewrite any_name_contains_listed.
    destruct (listed MODEL_LLAMA models) as [b|]; reflexivity.
  - destruct (is_Exception e); reflexivity.
Qed.

Lemma test_model_availability_gpt (w : World) (st : State) :
  test_model_availability w "gpt" st
  = (Ok (match openai_client (session st) with
         | Some _ => true
         | None => false
         end), st).
Proof. reflexivity. Qed.

(** ** Selecting a model *)

Lemma test_model_availability_session (w : World) (key : string) (st : State) :
  session (snd (test_model_availability w key st)) = session st.
Proof.
  apply (respects_test_model_availability (R := emits_only (fun _ => True))
           w key I st).
Qed.

Lemma switch_model_cases (w : World) (key : string) (st : State) :
  switch_model w key st
  = if dict_mem AVAILABLE_MODELS key then
      match test_model_availability w key st with
      | (Ok true, st1) =>
          match dict_get AVAILABLE_MODELS key with
          | Some info =>
              (Ok tt,
               mkState (mkSession (openai_client (session st1))
                                  (conversation_history (session st1)) key)
                 (trace st1 ++ [EvPrint ("✅ Switched to " ++ description info)])%list)
          | None =>
              (Raise (KeyError key),
               mkState (mkSession (openai_client (session st1))
                                  (conversation_history (session st1)) key)
                 (trace st1))
          end
      | (Ok false, st1) =>
          (Ok tt,
           mkState (session st1)
             (trace st1 ++ [EvPrint ("❌ Model " ++ key ++ " is not available")])%list)
      | (Raise e, st1) => (Raise e, st1)
      end
    else
      (Ok tt,
       mkState (session st)
         (trace st ++ [EvPrint "❌ Unknown model. Available: gpt, llama"])%list).
Proof.
  unfold switch_model. destruct (dict_mem AVAILABLE_MODELS key);
    [|reflexivity].
  unfold bind at 1.
  destruct (test_model_availability w key st) as [[[|]|e] st1];
    try reflexivity.
  unfold set_current_model, dict_getitem, bind, get_self, set_self.
  cbn [session trace]. destruct (dict_get AVAILABLE_MODELS key); reflexivity.
Qed.

Lemma handle_command_model_arg (w : World) (command verb arg : string)
    (rest : list string) (st : State) :
  startswith command "!" = true ->
  split (tail command) = verb :: arg :: rest ->
  lower verb = "model" ->
  handle_command w command st
  = match switch_model w (lower arg) st with
    | (Ok _, st') => (Ok true, st')
    | (Raise e, st') => (Raise e, st')
    end.
Proof.
  intros Hs Hp Hv. unfold handle_command. rewrite Hs, Hp.
  cbn [negb list_head]. unfold bind at 1. cbn [ret]. rewrite Hv.
  cbn [String.eqb Ascii.eqb Bool.eqb orb].
  unfold bind. destruct (switch_model w (lower arg) st) as [[u|e] st'];
    reflexivity.
Qed.




(** ** Verbs and the end of the loop *)

(** The turn of a line that the handler accepts as a command. *)
Lemma turn_handled (w : World) (text : string) (st st' : State) :
  is_empty (strip text) = false ->
  handle_command w (strip text)
    (mkState (session st)
       (trace st ++ [EvPrint (nl ++ repeat_char "=" 60);
                     EvPrompt input_prompt])%list)
  = (Ok true, st') ->
  turn w (Some (Line text)) st
  = (Ok (if startswith (strip text) "!quit" || startswith (strip text) "!exit"
         then Break else Continue), st').
Proof.
  intros Hq Hc. unfold turn, try_except, try_except_interrupt, turn_body.
  rewrite (bind_ok _ _ _ _ _ (get_user_input_line text st)), Hq.
  rewrite (bind_ok _ _ _ _ _ Hc).
  destruct (_ || _); reflexivity.
Qed.

(** A verb outside the recognised ones leaves the session as it is and
    reports the unknown command. *)
Lemma handle_command_unknown_verb (w : World) (command verb : string)
    (rest : list string) (st : State) :
  startswith command "!" = true ->
  split (tail command) = verb :: rest ->
  ~ In (lower verb)
       ["quit"; "exit"; "help"; "model"; "history"; "clear"; "save"] ->
  handle_command w command st
  = (Ok true,
     mkState (session st)
       (trace st
        ++ [EvPrint ("❌ Unknown command: " ++ lower verb
                     ++ ". Type !help for available commands.")])%list).
Proof.
  intros Hs Hp Hv. unfold handle_command. rewrite Hs, Hp.
  cbn [negb list_head]. unfold bind at 1. cbn [ret].
  repeat match goal with
  | |- context [(lower verb =? ?s)] =>
      destruct (String.eqb_spec (lower verb) s) as [E|_];
        [exfalso; apply Hv; rewrite E; simpl; tauto|]
  end.
  reflexivity.
Qed.

(** With such a verb, and a line that does not start with [!quit] or
    [!exit], the turn reports the unknown command, leaves the session as it
    is, and the loop goes on. *)
Lemma turn_unknown_verb_continues (w : World) (text verb : string)
    (rest : list string) (st : State) :
  startswith (strip text) "!" = true ->
  split (tail (strip text)) = verb :: rest ->
  ~ In (lower verb)
       ["quit"; "exit"; "help"; "model"; "history"; "clear"; "save"] ->
  startswith (strip text) "!quit" = false ->
  startswith (strip text) "!exit" = false ->
  turn w (Some (Line text)) st
  = (Ok Continue,
     mkState (session st)
       (trace st ++ prompt_events
        ++ [EvPrint ("❌ Unknown command: " ++ lower verb
                     ++ ". Type !help for available commands.")])%list).
Proof.
  intros Hs Hp Hv Hquit Hexit.
  rewrite (turn_handled w text st _ (startswith_not_empty _ _ Hs eq_refl)
             (handle_command_unknown_verb w _ verb rest _ Hs Hp Hv)).
  rewrite Hquit, Hexit. cbn [orb session trace].
  now rewrite <- app_assoc.
Qed.

(** The handler matches [quit] and [exit] whatever the case of the verb. *)
Lemma handle_command_quit (w : World) (command verb : string)
    (rest : list string) (st : State) :
  startswith command "!" = true ->
  split (tail command) = verb :: rest ->
  lower verb = "quit" \/ lower verb = "exit" ->
  handle_command w command st
  = (Ok true, mkState (session st) (trace st ++ [EvPrint "👋 Goodbye!"])%list).
Proof.
  intros Hs Hp Hv. unfold handle_command. rewrite Hs, Hp.
  cbn [negb list_head]. unfold bind at 1. cbn [ret].
  destruct Hv as [-> | ->]; reflexivity.
Qed.

(** C5. The unrecognised verb [quitx]: the handler reports the unknown
    command and leaves the session unchanged, and then the loop ends,
    because the input text starts with [!quit]; the rest of the script is
    never read. *)
Theorem C5_unknown_verb_with_quit_prefix_ends_loop (w : World) (st : State)
    (rest : list Input) :
  ~ In (lower "quitx")
       ["quit"; "exit"; "help"; "model"; "history"; "clear"; "save"]
  /\ handle_command w "!quitx" st
     = (Ok true,
        mkState (session st)
          (trace st
           ++ [EvPrint "❌ Unknown command: quitx. Type !help for available commands."])%list)
  /\ session_loop w (Line "!quitx" :: rest) st
     = (Ok tt,
        mkState (session st)
          (trace st
           ++ [EvPrint (nl ++ repeat_char "=" 60);
               EvPrompt input_prompt;
               EvPrint "❌ Unknown command: quitx. Type !help for available commands."])%list).
Proof.
  assert (Hc : forall st0,
    handle_command w "!quitx" st0
    = (Ok true,
       mkState (session st0)
         (trace st0
          ++ [EvPrint "❌ Unknown command: quitx. Type !help for available commands."])%list))
    by reflexivity.
  split; [|split].
  - simpl. intros H. repeat (destruct H as [H|H]; [discriminate|]). exact H.
  - apply Hc.
  - cbn [session_loop].
    rewrite (bind_ok _ _ _ _ _
               (turn_handled w "!quitx" st _ eq_refl (Hc _))).
    cbn. now rewrite <- app_assoc.
Qed.

(** C6. The handler matches the verb without regard to case, so [!QUIT]
    gets the farewell; but the loop does not end on it and goes on to read
    the next input, whereas [!quit] ends the loop. *)
Theorem C6_uppercase_quit_does_not_end_loop (w : World) (st : State)
    (rest : list Input) :
  handle_command w "!QUIT" st
  = (Ok true, mkState (session st) (trace st ++ [EvPrint "👋 Goodbye!"])%list)
  /\ session_loop w (Line "!QUIT" :: rest) st
     = session_loop w rest
         (mkState (session st)
            (trace st
             ++ [EvPrint (nl ++ repeat_char "=" 60);
                 EvPrompt input_prompt;
                 EvPrint "👋 Goodbye!"])%list)
  /\ session_loop w (Line "!quit" :: rest) st
     = (Ok tt,
        mkState (session st)
          (trace st
           ++ [EvPrint (nl ++ repeat_char "=" 60);
               EvPrompt input_prompt;
               EvPrint "👋 Goodbye!"])%list).
Proof.
  assert (Hupper : forall st0,
    handle_command w "!QUIT" st0
    = (Ok true,
       mkState (session st0) (trace st0 ++ [EvPrint "👋 Goodbye!"])%list))
    by reflexivity.
  assert (Hlower : forall st0,
    handle_command w "!quit" st0
    = (Ok true,
       mkState (session st0) (trace st0 ++ [EvPrint "👋 Goodbye!"])%list))
    by reflexivity.
  split; [apply Hupper|]. split.
  - cbn [session_loop].
    rewrite (bind_ok _ _ _ _ _
               (turn_handled w "!QUIT" st _ eq_refl (Hupper _))).
    cbn -[session_loop]. now rewrite <- app_assoc.
  - cbn [session_loop].
    rewrite (bind_ok _ _ _ _ _
               (turn_handled w "!quit" st _ eq_refl (Hlower _))).
    cbn. now rewrite <- app_assoc.
Qed.

(** C10. A line that is the sentinel alone once stripped: the handler's
    access to the first word raises [IndexError]; the loop's handler for
    unexpected errors logs and prints it, the session is unchanged, and the
    loop goes on with the next input. *)
Theorem C10_bare_sentinel (w : World) (st : State) (text : string)
    (rest : list Input) :
  strip text = "!" ->
  (forall st0,
     handle_command w (strip text) st0
     = (Raise (IndexError "list index out of range"), st0))
  /\ turn w (Some (Line text)) st
     = (Ok Continue,
        mkState (session st)
          (trace st
           ++ [EvPrint (nl ++ repeat_char "=" 60);
               EvPrompt input_prompt;
               EvLog ERROR "Unexpected error: list index out of range";
               EvPrint "❌ An unexpected error occurred: list index out of range"])%list)
  /\ session_loop w (Line text :: rest) st
     = session_loop w rest
         (mkState (session st)
            (trace st
             ++ [EvPrint (nl ++ repeat_char "=" 60);
                 EvPrompt input_prompt;
                 EvLog ERROR "Unexpected error: list index out of range";
                 EvPrint "❌ An unexpected error occurred: list index out of range"])%list).
Proof.
  intros Ht.
  assert (Hturn : turn w (Some (Line text)) st
     = (Ok Continue,
        mkState (session st)
          (trace st
           ++ [EvPrint (nl ++ repeat_char "=" 60);
               EvPrompt input_prompt;
               EvLog ERROR "Unexpected error: list index out of range";
               EvPrint "❌ An unexpected error occurred: list index out of range"])%list)).
  { unfold turn, try_except, try_except_interrupt, turn_body.
    rewrite (bind_ok _ _ _ _ _ (get_user_input_line text st)), Ht.
    cbn. now rewrite <- !app_assoc. }
  split; [|split].
  - intros st0. rewrite Ht. reflexivity.
  - exact Hturn.
  - cbn [session_loop]. now rewrite (bind_ok _ _ _ _ _ Hturn).
Qed.

Lemma C10_bare_sentinel_witness :
  strip "  !  " = "!"
  /\ turn world_up (Some (Line "  !  ")) fresh_state
     = (Ok Continue,
        mkState (session fresh_state)
          (trace fresh_state
           ++ [EvPrint (nl ++ repeat_char "=" 60);
               EvPrompt input_prompt;
               EvLog ERROR "Unexpected error: list index out of range";
               EvPrint "❌ An unexpected error occurred: list index out of range"])%list).
Proof.
  split; [reflexivity|].
  apply (proj1 (proj2 (C10_bare_sentinel world_up fresh_state "  !  " []
                         eq_refl))).
Defined.

(** ** Question turns *)

Lemma completion_replies_app (w : World) (before : Trace)
    (evs1 evs2 : list Event) :
  completion_replies w before (evs1 ++ evs2)
  = (completion_replies w before evs1
     ++ completion_replies w (before ++ evs1) evs2)%list.
Proof.
  revert before. induction evs1 as [|e evs1 IH]; intros before.
  - simpl. now rewrite app_nil_r.
  - cbn [app completion_replies].
    replace (before ++ e :: evs1)%list with ((before ++ [e]) ++ evs1)%list
      by (now rewrite <- app_assoc).
    destruct e; rewrite IH; reflexivity.
Qed.

Lemma completion_replies_none (w : World) (before : Trace)
    (evs : list Event) :
  Forall not_completion evs -> completion_replies w before evs = [].
Proof.
  intros H. revert before. induction H as [|e evs He _ IH]; intros before;
    [reflexivity|].
  destruct e; try discriminate He; apply IH.
Qed.

Lemma ask_question_emits_only (w : World) (question : string) :
  respects (emits_only (fun _ => True)) (ask_question w question).
Proof. unfold ask_question, get_system_prompt. respects_auto. Qed.

(** What [ask_question] does: it never touches the attributes; either it
    makes no completion call and returns no answer, or it makes exactly one,
    whose reply decides the result. *)
Lemma ask_question_outcome (w : World) (question : string) (st : State) :
  let r := fst (ask_question w question st) in
  let st' := snd (ask_question w question st) in
  session st' = session st
  /\ exists evs,
       trace st' = (trace st ++ evs)%list
       /\ ((completion_replies w (trace st) evs = []
            /\ forall a, r <> Ok (Some a))
           \/ exists ev reply rest,
                evs = ev :: rest
                /\ completion_replies w (trace st) evs = [reply]
                /\ match reply with
                   | Returns a => r = Ok a /\ rest = []
                   | Raises e =>
                       if is_Exception e
                       then r = Ok None
                            /\ rest
                               = [EvLog ERROR
                                    ("Error getting response from "
                                     ++ selected st ++ ": " ++ exn_str e);
                                  EvPrint ("❌ Error: " ++ exn_str e)]
                       else r = Raise e /\ rest = []
                   end).
Proof.
  cbv zeta. split.
  - apply (ask_question_emits_only w question st).
  - unfold ask_question, get_system_prompt, bind, get_self, dict_getitem,
      try_except, call, selected.
    destruct (dict_get AVAILABLE_MODELS (current_model (session st)))
      as [info|]; cbn [ret raise fst snd session trace].
    2: { exists []. rewrite app_nil_r. split; [reflexivity|].
         left. split; [reflexivity | discriminate]. }
    destruct (provider info =? "openai").
    { destruct (openai_client (session st)).
      - match goal with |- context [openai_chat w ?tr] =>
          destruct (openai_chat w tr) as [a|e] eqn:Hr end; cbn [fst snd].
        + eexists [_]. split; [reflexivity|]. right.
          eexists _, _, []. split; [reflexivity|].
          split; [cbn [completion_replies]; rewrite Hr; reflexivity|]. now split.
        + destruct (is_Exception e) eqn:He;
          unfold log, print, emit, ret; cbn [fst snd session trace].
          * eexists [_; _; _]. split; [now rewrite <- !app_assoc|]. right.
            eexists _, _, _. split; [reflexivity|].
            split; [cbn [completion_replies]; rewrite Hr; reflexivity|]. cbv beta iota. rewrite He. now split.
          * eexists [_]. split; [reflexivity|]. right.
            eexists _, _, []. split; [reflexivity|].
            split; [cbn [completion_replies]; rewrite Hr; reflexivity|]. cbv beta iota. rewrite He. now split.
      - unfold log, print, emit, ret, raise;
          cbn [fst snd session trace is_Exception].
        eexists [_; _]. split; [now rewrite <- !app_assoc|]. left.
        split; [reflexivity | discriminate]. }
    destruct (provider info =? "ollama").
    { match goal with |- context [ollama_chat w ?tr] =>
        destruct (ollama_chat w tr) as [a|e] eqn:Hr end; cbn [fst snd].
      + eexists [_]. split; [reflexivity|]. right.
        eexists _, _, []. split; [reflexivity|].
        split; [cbn [completion_replies]; rewrite Hr; reflexivity|]. now split.
      + destruct (is_Exception e) eqn:He;
          unfold log, print, emit, ret; cbn [fst snd session trace].
        * eexists [_; _; _]. split; [now rewrite <- !app_assoc|]. right.
          eexists _, _, _. split; [reflexivity|].
          split; [cbn [completion_replies]; rewrite Hr; reflexivity|]. cbv beta iota. rewrite He. now split.
        * eexists [_]. split; [reflexivity|]. right.
          eexists _, _, []. split; [reflexivity|].
          split; [cbn [completion_replies]; rewrite Hr; reflexivity|]. cbv beta iota. rewrite He. now split. }
    unfold ret; cbn [fst snd]. exists []. rewrite app_nil_r. split; [reflexivity|]. left.
    split; [reflexivity | discriminate].
Qed.

Lemma handle_command_not_sentinel (w : World) (command : string) (st : State) :
  startswith command "!" = false ->
  handle_command w command st = (Ok false, st).
Proof. intros H. unfold handle_command. now rewrite H. Qed.

(** A question turn, given what [ask_question] does. *)
Lemma turn_question (w : World) (text : string) (st : State)
    (info : ModelInfo) :
  is_empty (strip text) = false ->
  startswith (strip text) "!" = false ->
  dict_get AVAILABLE_MODELS (selected st) = Some info ->
  turn w (Some (Line text)) st
  = match ask_question w (strip text) (asking info st) with
    | (Ok (Some a), st4) =>
        if is_empty a
        then (Ok Continue,
              mkState (session st4) (trace st4 ++ [no_response])%list)
        else (Ok Continue,
              mkState
                (mkSession (openai_client (session st4))
                   (conversation_history (session st4) ++ [(strip text, a)])%list
                   (current_model (session st4)))
                (trace st4
                 ++ [EvDisplay a;
                     EvPrint (nl ++ "💡 Follow-up question, new question, or command?")])%list)
    | (Ok None, st4) =>
        (Ok Continue, mkState (session st4) (trace st4 ++ [no_response])%list)
    | (Raise e, st4) =>
        if is_Exception e
        then (Ok Continue,
              mkState (session st4)
                (trace st4
                 ++ [EvLog ERROR ("Unexpected error: " ++ exn_str e);
                     EvPrint ("❌ An unexpected error occurred: " ++ exn_str e)])%list)
        else match e with
             | KeyboardInterrupt =>
                 (Ok Break,
                  mkState (session st4)
                    (trace st4
                     ++ [EvPrint (nl ++ nl ++ "👋 Session interrupted. Goodbye!")])%list)
             | _ => (Raise e, st4)
             end
    end.
Proof.
  intros Hq Hs Hinfo.
  unfold turn, try_except, try_except_interrupt, turn_body.
  rewrite (bind_ok _ _ _ _ _ (get_user_input_line text st)), Hq.
  rewrite (bind_ok _ _ _ _ _ (handle_command_not_sentinel w _ _ Hs)).
  cbv beta iota. unfold bind at 1. cbn [get_self session trace].
  unfold bind at 1. unfold dict_getitem. unfold selected in Hinfo.
  rewrite Hinfo. cbn [ret]. unfold bind at 1. cbn [print emit session trace].
  rewrite <- app_assoc. cbn [app]. fold prompt_events.
  change (mkState (session st) _) with (asking info st).
  unfold bind at 1.
  destruct (ask_question w (strip text) (asking info st))
    as [[[a|]|e] st4].
  - unfold truthy. destruct (is_empty a); cbn; [reflexivity|].
    now rewrite <- app_assoc.
  - reflexivity.
  - destruct e; cbn; try reflexivity; now rewrite <- app_assoc.
Qed.

(** A question turn when the selection is not a registry key. *)
Lemma turn_question_unregistered (w : World) (text : string) (st : State) :
  is_empty (strip text) = false ->
  startswith (strip text) "!" = false ->
  dict_get AVAILABLE_MODELS (selected st) = None ->
  turn w (Some (Line text)) st
  = (Ok Continue,
     mkState (session st)
       (trace st ++ prompt_events
        ++ [EvLog ERROR ("Unexpected error: " ++ exn_str (KeyError (selected st)));
            EvPrint ("❌ An unexpected error occurred: "
                     ++ exn_str (KeyError (selected st)))])%list).
Proof.
  intros Hq Hs Hinfo.
  unfold turn, try_except, try_except_interrupt, turn_body.
  rewrite (bind_ok _ _ _ _ _ (get_user_input_line text st)), Hq.
  rewrite (bind_ok _ _ _ _ _ (handle_command_not_sentinel w _ _ Hs)).
  cbv beta iota. unfold bind at 1. cbn [get_self session trace].
  unfold bind at 1. unfold dict_getitem. unfold selected in *.
  rewrite Hinfo. unfold raise, bind, log, print, emit, ret.
  cbn [is_Exception session trace]. now rewrite <- !app_assoc.
Qed.

Lemma completion_replies_sandwich (w : World) (before : Trace)
    (pre evs post : list Event) :
  Forall not_completion pre -> Forall not_completion post ->
  completion_replies w before (pre ++ evs ++ post)%list
  = completion_replies w (before ++ pre)%list evs.
Proof.
  intros Hpre Hpost.
  rewrite completion_replies_app, (completion_replies_none _ _ _ Hpre).
  rewrite completion_replies_app, (completion_replies_none _ _ _ Hpost).
  cbn [app]. now rewrite app_nil_r.
Qed.

Lemma registry_provider (key : string) (info : ModelInfo) :
  dict_get AVAILABLE_MODELS key = Some info ->
  provider info = "openai" \/ provider info = "ollama".
Proof.
  cbn [dict_get AVAILABLE_MODELS].
  destruct ("gpt" =? key); [intros H; inversion H; now left|].
  destruct ("llama" =? key); [intros H; inversion H; now right|].
  discriminate.
Qed.

(** What [ask_question] does when the world answers its completion call
    with an exception. *)
Lemma ask_question_failure (w : World) (question : string) (st : State)
    (info : ModelInfo) (e : exn) :
  dict_get AVAILABLE_MODELS (selected st) = Some info ->
  (provider info = "openai" -> openai_client (session st) <> None) ->
  completion_answer w info (trace st ++ [completion_call info question])%list
  = Raises e ->
  is_Exception e = true ->
  ask_question w question st
  = (Ok None,
     mkState (session st)
       (trace st
        ++ [completion_call info question;
            EvLog ERROR ("Error getting response from " ++ selected st
                         ++ ": " ++ exn_str e);
            EvPrint ("❌ Error: " ++ exn_str e)])%list).
Proof.
  intros Hinfo Hclient Hreply He.
  unfold completion_answer, completion_call in *.
  unfold ask_question, get_system_prompt, bind, get_self, dict_getitem,
    try_except, call, selected in *.
  rewrite Hinfo. cbn [ret session trace].
  fold (chat_messages question).
  destruct (registry_provider _ _ Hinfo) as [Hp|Hp]; rewrite Hp in *;
    cbn [String.eqb Ascii.eqb Bool.eqb] in *.
  - destruct (openai_client (session st)); [|now elim Hclient].
    rewrite Hreply, He. unfold log, print, emit, ret.
    cbn [session trace]. now rewrite <- !app_assoc.
  - rewrite Hreply, He. unfold log, print, emit, ret.
    cbn [session trace]. now rewrite <- !app_assoc.
Qed.

(** C7. In a question turn, if the world answers the completion call of the
    selected model with an exception, the turn is exactly this: the call is
    made, [ask_question] logs and prints the error, the loop prints that
    there was no response, the session (and so the history) is what it was,
    and the loop goes on with the next input.  In terms of the turn's own
    events: a completion call answered by an exception leaves the history
    as it was, with the error printed and the loop going on; and if the
    history differs after the turn, then the turn made one completion call,
    it returned an answer, and the history grew by exactly that (question,
    answer) pair at its end. *)
Theorem C7_failed_completion_not_recorded (w : World) (st : State)
    (text : string) (rest : list Input) :
  is_empty (strip text) = false ->
  startswith (strip text) "!" = false ->
  (forall info e,
     dict_get AVAILABLE_MODELS (selected st) = Some info ->
     (provider info = "openai" -> openai_client (session st) <> None) ->
     completion_answer w info
       (trace (asking info st) ++ [completion_call info (strip text)])%list
     = Raises e ->
     is_Exception e = true ->
     turn w (Some (Line text)) st
     = (Ok Continue,
        mkState (session st)
          (trace (asking info st)
           ++ [completion_call info (strip text);
               EvLog ERROR ("Error getting response from " ++ selected st
                            ++ ": " ++ exn_str e);
               EvPrint ("❌ Error: " ++ exn_str e);
               no_response])%list)
     /\ session_loop w (Line text :: rest) st
        = session_loop w rest
            (mkState (session st)
               (trace (asking info st)
                ++ [completion_call info (strip text);
                    EvLog ERROR ("Error getting response from " ++ selected st
                                 ++ ": " ++ exn_str e);
                    EvPrint ("❌ Error: " ++ exn_str e);
                    no_response])%list))
  /\ (exists evs,
       trace (snd (turn w (Some (Line text)) st)) = (trace st ++ evs)%list
       /\ (forall e,
             In (Raises e) (completion_replies w (trace st) evs) ->
             is_Exception e = true ->
             history (snd (turn w (Some (Line text)) st)) = history st
             /\ In (EvPrint ("❌ Error: " ++ exn_str e)) evs
             /\ fst (turn w (Some (Line text)) st) = Ok Continue
             /\ session_loop w (Line text :: rest) st
                = session_loop w rest (snd (turn w (Some (Line text)) st)))
       /\ (history (snd (turn w (Some (Line text)) st)) <> history st ->
           exists a,
             completion_replies w (trace st) evs = [Returns (Some a)]
             /\ history (snd (turn w (Some (Line text)) st))
                = (history st ++ [(strip text, a)])%list)).
Proof.
  intros Hq Hs. split.
  { intros info e Hinfo Hclient Hreply He.
    assert (Hturn : turn w (Some (Line text)) st
     = (Ok Continue,
        mkState (session st)
          (trace (asking info st)
           ++ [completion_call info (strip text);
               EvLog ERROR ("Error getting response from " ++ selected st
                            ++ ": " ++ exn_str e);
               EvPrint ("❌ Error: " ++ exn_str e);
               no_response])%list)).
    { rewrite (turn_question w text st info Hq Hs Hinfo).
      rewrite (ask_question_failure w (strip text) (asking info st) info e
                 Hinfo Hclient Hreply He).
      cbn [session trace asking]. f_equal. f_equal.
      now rewrite <- !app_assoc. }
    split; [exact Hturn|].
    cbn [session_loop]. now rewrite (bind_ok _ _ _ _ _ Hturn). }
  revert Hq Hs.
  intros Hq Hs.
  assert (Hloop : forall st',
    turn w (Some (Line text)) st = (Ok Continue, st') ->
    session_loop w (Line text :: rest) st = session_loop w rest st').
  { intros st' H. cbn [session_loop]. now rewrite (bind_ok _ _ _ _ _ H). }
  destruct (dict_get AVAILABLE_MODELS (selected st)) as [info|] eqn:Hinfo.
  2: { rewrite (turn_question_unregistered w text st Hq Hs Hinfo) in *.
       cbn [fst snd trace]. eexists. split; [reflexivity|]. split.
       - intros e Hin. rewrite completion_replies_none in Hin
           by (repeat constructor). destruct Hin.
       - intros H. now elim H. }
  pose proof (turn_question w text st info Hq Hs Hinfo) as Hturn.
  pose proof (ask_question_outcome w (strip text) (asking info st)) as Hout.
  cbv zeta in Hout.
  destruct (ask_question w (strip text) (asking info st)) as [r1 st4].
  cbn [fst snd] in Hout. destruct Hout as [Hsess (evs & Htr & Hcases)].
  set (pre := (prompt_events
               ++ [EvPrint ("🤖 Thinking... (using " ++ description info ++ ")")])%list).
  assert (Hpre : Forall not_completion pre) by (repeat constructor).
  assert (Htr4 : forall post,
            (trace st4 ++ post = trace st ++ (pre ++ evs ++ post))%list).
  { intros post. rewrite Htr. unfold asking. cbn [trace]. fold pre.
    now rewrite <- !app_assoc. }
  assert (Hh4 : conversation_history (session st4) = history st)
    by (now rewrite Hsess).
  destruct Hcases as [[Hnone Hr] | (ev & reply & rest' & Hevs & Hrep & Hm)].
  - (* no completion call *)
    assert (Hno : forall post, Forall not_completion post ->
              completion_replies w (trace st) (pre ++ evs ++ post) = []).
    { intros post Hpost. rewrite completion_replies_sandwich by assumption.
      exact Hnone. }
    destruct r1 as [[a|]|e].
    + now elim (Hr a).
    + rewrite Hturn in *. cbn [fst snd trace]. eexists. split; [apply Htr4|].
      split.
      * intros e Hin. rewrite Hno in Hin by (repeat constructor).
        destruct Hin.
      * intros H. elim H. exact Hh4.
    + destruct e; cbn [is_Exception] in Hturn; rewrite Hturn in *;
        cbn [fst snd trace];
        (eexists; split; [first [apply Htr4 | rewrite <- (app_nil_r (trace st4)); apply Htr4]|]);
        (split;
         [ intros e0 Hin; rewrite Hno in Hin by (repeat constructor);
           destruct Hin
         | intros H; elim H; exact Hh4 ]).
  - (* one completion call *)
    assert (Hone : forall post, Forall not_completion post ->
              completion_replies w (trace st) (pre ++ evs ++ post) = [reply]).
    { intros post Hpost. rewrite completion_replies_sandwich by assumption.
      exact Hrep. }
    destruct reply as [a|e].
    + destruct Hm as [-> ->].
      destruct a as [a|].
      * destruct (is_empty a); rewrite Hturn in *; cbn [fst snd trace];
          (eexists; split; [apply Htr4|]); rewrite Hone by (repeat constructor).
        -- split; [intros e [Hin|[]]; discriminate Hin|].
           intros H. elim H. exact Hh4.
        -- split; [intros e [Hin|[]]; discriminate Hin|].
           intros _. exists a. split; [reflexivity|].
           unfold history at 1. cbn [session conversation_history].
           now rewrite Hh4.
      * rewrite Hturn in *; cbn [fst snd trace].
        eexists; split; [apply Htr4|]. rewrite Hone by (repeat constructor).
        split; [intros e [Hin|[]]; discriminate Hin|].
        intros H. elim H. exact Hh4.
    + destruct (is_Exception e) eqn:He.
      * destruct Hm as [-> Hrest]. rewrite Hturn in *; cbn [fst snd trace].
        eexists; split; [apply Htr4|]. rewrite Hone by (repeat constructor).
        split.
        -- intros e0 [Hin|[]] _. inversion Hin; subst e0.
           split; [exact Hh4|]. split.
           ++ apply in_or_app; right. apply in_or_app; left.
              rewrite Hevs, Hrest. simpl. tauto.
           ++ split; [reflexivity|]. now apply Hloop.
        -- intros H. elim H. exact Hh4.
      * destruct Hm as [-> _]. rewrite He in Hturn.
        destruct e; try discriminate He; rewrite Hturn in *;
          cbn [fst snd trace];
          (eexists; split; [first [apply Htr4 | rewrite <- (app_nil_r (trace st4)); apply Htr4]|]);
          rewrite Hone by (repeat constructor);
          (split;
           [ intros e0 [Hin|[]] He0; inversion Hin; subst e0; discriminate He0
           | intros H; elim H; exact Hh4 ]).
Qed.

Lemma C7_failed_completion_not_recorded_witness :
  is_empty (strip "what is a list?") = false
  /\ startswith (strip "what is a list?") "!" = false
  /\ completion_answer world_down
       (mkModelInfo MODEL_LLAMA "ollama" "Llama 3.2 (Local)")
       (trace (asking (mkModelInfo MODEL_LLAMA "ollama" "Llama 3.2 (Local)")
                 fresh_state)
        ++ [completion_call
              (mkModelInfo MODEL_LLAMA "ollama" "Llama 3.2 (Local)")
              (strip "what is a list?")])%list
     = Raises (ExternalError "connection refused")
  /\ turn world_down (Some (Line "what is a list?")) fresh_state
     = (Ok Continue,
        mkState (mkSession (Some Client) [] "llama")
          (prompt_events
           ++ [EvPrint "🤖 Thinking... (using Llama 3.2 (Local))";
               EvOllamaChat "llama3.2" (chat_messages "what is a list?");
               EvLog ERROR "Error getting response from llama: connection refused";
               EvPrint "❌ Error: connection refused";
               no_response])%list).
Proof.
  split; [reflexivity|]. split; [reflexivity|]. split; [reflexivity|].
  apply (proj1 (proj1 (C7_failed_completion_not_recorded world_down
                         fresh_state "what is a list?" [] eq_refl eq_refl)
                  (mkModelInfo MODEL_LLAMA "ollama" "Llama 3.2 (Local)")
                  (ExternalError "connection refused")
                  eq_refl (fun _ => ltac:(discriminate)) eq_refl eq_refl)).
Defined.

(** ** The invariant of the session *)

Lemma save_conversation_emits_only (w : World) :
  respects (emits_only (fun _ => True)) (save_conversation w).
Proof. unfold save_conversation. respects_auto. Qed.

Lemma display_welcome_emits_only (w : World) :
  respects (emits_only (fun _ => True)) (display_welcome w).
Proof.
  unfold display_welcome. respects_auto.
  now apply respects_test_model_availability.
Qed.

Lemma set_current_model_registered (key : string) :
  registered key -> respects handler_step (set_current_model key).
Proof. intros Hk st. split; [now right | now left]. Qed.

Lemma set_conversation_history_clear :
  respects handler_step (set_conversation_history []).
Proof. intros st. split; [now left | now right]. Qed.

Lemma switch_model_handler_step (w : World) (key : string) :
  respects handler_step (switch_model w key).
Proof.
  unfold switch_model.
  destruct (dict_mem AVAILABLE_MODELS key) eqn:Hk; [|respects_auto].
  apply respects_bind.
  - apply (respects_weaken _ _ _ (emits_only_handler_step (fun _ => True))).
    now apply respects_test_model_availability.
  - intros [|]; [|respects_auto].
    apply respects_bind; [now apply set_current_model_registered|].
    intros _. respects_auto.
Qed.

Lemma handle_command_handler_step (w : World) (command : string) :
  respects handler_step (handle_command w command).
Proof.
  unfold handle_command. respects_auto.
  - apply switch_model_handler_step.
  - apply set_conversation_history_clear.
  - apply (respects_weaken _ _ _ (emits_only_handler_step (fun _ => True))).
    apply save_conversation_emits_only.
Qed.

Lemma turn_sentinel_session (w : World) (text : string) (st : State) :
  startswith (strip text) "!" = true ->
  session (snd (turn w (Some (Line text)) st))
  = session (snd (handle_command w (strip text)
                    (mkState (session st) (trace st ++ prompt_events)%list))).
Proof.
  intros Hs.
  pose proof (handle_command_sentinel w (strip text)
                (mkState (session st) (trace st ++ prompt_events)%list) Hs)
    as Hb.
  unfold turn, try_except, try_except_interrupt, turn_body.
  rewrite (bind_ok _ _ _ _ _ (get_user_input_line text st)).
  rewrite (startswith_not_empty _ _ Hs eq_refl).
  fold prompt_events. unfold bind at 1.
  destruct (handle_command w (strip text) _) as [[[|]|e] st3];
    cbn [fst snd] in *.
  - destruct (_ || _); reflexivity.
  - congruence.
  - destruct e; reflexivity.
Qed.

Lemma turn_step_holds (w : World) (input : option Input) (st : State) :
  turn_step st (snd (turn w input st)).
Proof.
  assert (Hsame : forall st', session st' = session st -> turn_step st st').
  { intros st' H. unfold turn_step, selection_step, hist_step, selected,
      history. rewrite H. split; now left. }
  destruct input as [[text|]|]; try (apply Hsame; reflexivity).
  destruct (is_empty (strip text)) eqn:Hq.
  { apply Hsame. unfold turn, try_except, try_except_interrupt, turn_body.
    rewrite (bind_ok _ _ _ _ _ (get_user_input_line text st)), Hq.
    reflexivity. }
  destruct (startswith (strip text) "!") eqn:Hs.
  { pose proof (handle_command_handler_step w (strip text)
                  (mkState (session st) (trace st ++ prompt_events)%list))
      as [Hsel Hh].
    unfold turn_step, selection_step, hist_step, selected, history in *.
    rewrite (turn_sentinel_session w text st Hs). cbn [session] in *.
    split; [exact Hsel | tauto]. }
  destruct (dict_get AVAILABLE_MODELS (selected st)) as [info|] eqn:Hinfo.
  2: { apply Hsame.
       now rewrite (turn_question_unregistered w text st Hq Hs Hinfo). }
  rewrite (turn_question w text st info Hq Hs Hinfo).
  pose proof (ask_question_outcome w (strip text) (asking info st))
    as [Hsess _].
  destruct (ask_question w (strip text) (asking info st)) as [r1 st4].
  cbn [fst snd asking session] in Hsess.
  destruct r1 as [[a|]|e].
  - destruct (is_empty a); [now apply Hsame|].
    unfold turn_step, selection_step, hist_step, selected, history.
    cbn [snd session conversation_history current_model]. rewrite Hsess.
    split; [now left | right; left; now exists (strip text), a].
  - now apply Hsame.
  - destruct e; now apply Hsame.
Qed.

Lemma session_loop_loop_step (w : World) (inputs : list Input) :
  respects loop_step (session_loop w inputs).
Proof.
  assert (Hturn : forall input, respects loop_step (turn w input)).
  { intros input st. apply turn_step_loop_step, turn_step_holds. }
  induction inputs as [|input rest IH]; cbn [session_loop].
  - apply respects_bind; [apply Hturn | intros _; apply respects_ret].
  - apply respects_bind; [apply Hturn|].
    intros [|]; [exact IH | apply respects_ret].
Qed.

Lemma init_outcome (w : World) (st : State) :
  match init w st with
  | (Ok _, st') =>
      selected st' = "llama" /\ history st' = []
  | (Raise e, _) =>
      is_Exception e = false
      \/ load_dotenv w (trace st ++ [EvLoadDotenv])%list = Raises e
  end.
Proof.
  unfold init, setup_environment, bind, try_except, call, emit, log,
    set_openai_client, set_conversation_history, set_current_model,
    get_self, set_self, bind.
  cbn [session trace].
  destruct (load_dotenv w (trace st ++ [EvLoadDotenv])%list) as [u|e0]; cbn;
    [|now right].
  match goal with |- context [openai_init w ?tr] =>
    destruct (openai_init w tr) as [c|e] end; cbn;
    [|destruct (is_Exception e) eqn:He; cbn; [|now left]];
    (match goal with |- context [ollama_list w ?tr] =>
       destruct (ollama_list w tr) as [l|e'] end; cbn;
     [now split
     |destruct (is_Exception e') eqn:He'; cbn; [now split | now left]]).
Qed.

(** C8. The invariant of the session.  Construction, when it returns,
    has selected the registry key [llama] with an empty history.
    A command handler leaves the selection as it is or selects a registry
    key, and leaves the history as it is or clears it.  A turn of the loop
    leaves the selection as it is or selects a registry key, and leaves the
    history as it is, appends one pair at its end, or clears it.  Over a
    whole session the selection is the initial one or a registry key and the
    history has gone through a sequence of such modifications. *)
Theorem C8_session_invariant (w : World) :
  (forall st,
     match init w st with
     | (Ok _, st') => registered (selected st') /\ history st' = []
     | (Raise _, _) => True
     end)
  /\ (forall command st,
        let st' := snd (handle_command w command st) in
        (selected st' = selected st \/ registered (selected st'))
        /\ (history st' = history st \/ history st' = []))
  /\ (forall input st,
        let st' := snd (turn w input st) in
        (selected st' = selected st \/ registered (selected st'))
        /\ (history st' = history st
            \/ (exists q a, history st' = (history st ++ [(q, a)])%list)
            \/ history st' = []))
  /\ (forall inputs st,
        let st' := snd (run_interactive_session w inputs st) in
        (selected st' = selected st \/ registered (selected st'))
        /\ hist_steps (history st) (history st')).
Proof.
  split; [|split; [|split]].
  - intros st. pose proof (init_outcome w st) as H.
    destruct (init w st) as [[u|e] st']; [|exact I].
    destruct H as [Hsel Hh]. split; [|exact Hh]. now rewrite Hsel.
  - intros command st. apply handle_command_handler_step.
  - intros input st. apply turn_step_holds.
  - intros inputs. unfold run_interactive_session.
    change (respects loop_step
              (display_welcome w ;; session_loop w inputs)).
    apply respects_bind.
    + apply (respects_weaken _ _ _ (emits_only_loop_step (fun _ => True))).
      apply display_welcome_emits_only.
    + intros _. apply session_loop_loop_step.
Qed.

(** ** Availability *)

(** C9, as claimed, fails for the cloud model: with every backend of
    the world raising, [test_model_availability] for [gpt] reaches no
    backend, and [!model gpt] switches on the strength of the client object
    alone. *)
Lemma C9_gpt_is_not_reprobed :
  registered "gpt"
  /\ ~ reprobes "gpt"
  /\ handle_command world_down "!model gpt" fresh_state
     = (Ok true,
        mkState (mkSession (Some Client) [] "gpt")
          [EvPrint "✅ Switched to OpenAI GPT-4o Mini"]).
Proof.
  split; [reflexivity|]. split; [|reflexivity].
  intros H. specialize (H world_down fresh_state).
  rewrite test_model_availability_gpt in H. cbn in H. lia.
Qed.

(** C9, amended.  Availability is computed anew at every reference and
    nothing is cached.  For the local model the computation is one
    [ollama.list()] call, answered by the world at that moment, and the
    result is read off that answer; for the cloud model it is the test
    whether the client object made at start-up exists, with no call to a
    backend.  Accordingly a [!model llama] command and a welcome render each
    make exactly one backend call, and a [!model gpt] command makes none. *)
Theorem C9_availability_probe (w : World) (st : State) :
  test_model_availability w "llama" st
  = (match ollama_list w (trace st ++ [EvOllamaList])%list with
     | Returns models =>
         match listed MODEL_LLAMA models with
         | Some b => Ok b
         | None => Ok false
         end
     | Raises e => if is_Exception e then Ok false else Raise e
     end,
     mkState (session st) (trace st ++ [EvOllamaList])%list)
  /\ test_model_availability w "gpt" st
     = (Ok (match openai_client (session st) with
            | Some _ => true
            | None => false
            end), st)
  /\ backend_calls (new_events st (snd (handle_command w "!model llama" st)))
     = 1
  /\ backend_calls (new_events st (snd (handle_command w "!model gpt" st)))
     = 0
  /\ backend_calls (new_events st (snd (display_welcome w st))) = 1.
Proof.
  split; [apply test_model_availability_llama|].
  split; [apply test_model_availability_gpt|].
  split; [|split].
  - rewrite (handle_command_model_arg w "!model llama" "model" "llama" [] st
               eq_refl eq_refl eq_refl).
    change (lower "llama") with "llama".
    rewrite switch_model_cases.
    change (dict_mem AVAILABLE_MODELS "llama") with true.
    change (dict_get AVAILABLE_MODELS "llama")
      with (Some (mkModelInfo MODEL_LLAMA "ollama" "Llama 3.2 (Local)")).
    cbv iota. rewrite test_model_availability_llama.
    destruct (ollama_list w (trace st ++ [EvOllamaList])%list) as [models|e].
    + destruct (listed MODEL_LLAMA models) as [[|]|]; cbn [snd];
        (erewrite new_events_app;
         [|cbn [trace]; rewrite <- app_assoc; reflexivity]); reflexivity.
    + destruct (is_Exception e); cbn [snd];
        (erewrite new_events_app;
         [|cbn [trace]; rewrite <- ?app_assoc; reflexivity]); reflexivity.
  - rewrite (handle_command_model_arg w "!model gpt" "model" "gpt" [] st
               eq_refl eq_refl eq_refl).
    change (lower "gpt") with "gpt".
    rewrite switch_model_cases.
    change (dict_mem AVAILABLE_MODELS "gpt") with true.
    change (dict_get AVAILABLE_MODELS "gpt")
      with (Some (mkModelInfo MODEL_GPT "openai" "OpenAI GPT-4o Mini")).
    cbv iota. rewrite test_model_availability_gpt.
    destruct (openai_client (session st)); cbn [snd];
      (erewrite new_events_app; [|cbn [trace]; reflexivity]); reflexivity.
  - unfold display_welcome. cbn [for_fold AVAILABLE_MODELS].
    unfold bind at 1. unfold bind at 1. unfold bind at 1.
    rewrite test_model_availability_gpt. cbn [ret]. unfold bind at 1.
    unfold bind at 1. rewrite test_model_availability_llama.
    assert (Hfin : forall (r : Outcome unit) s evs,
      evs = [EvOllamaList] \/ (exists e, evs = [EvOllamaList; EvDisplay e]) ->
      backend_calls
        (new_events st (snd (r, mkState s (trace st ++ evs)%list))) = 1).
    { intros r s evs H. cbn [snd]. erewrite new_events_app by reflexivity.
      destruct H as [->|[e ->]]; reflexivity. }
    unfold dict_getitem, get_self, display_markdown, emit, ret, raise, bind.
    destruct (ollama_list w (trace st ++ [EvOllamaList])%list) as [models|e].
    + destruct (listed MODEL_LLAMA models) as [[|]|]; cbn [session trace];
        (destruct (dict_get AVAILABLE_MODELS (current_model (session st)));
         cbn [session trace];
         [rewrite <- app_assoc; apply Hfin; right; eexists; reflexivity
         |apply Hfin; now left]).
    + destruct (is_Exception e); cbn [session trace].
      * destruct (dict_get AVAILABLE_MODELS (current_model (session st)));
          cbn [session trace];
          [rewrite <- app_assoc; apply Hfin; right; eexists; reflexivity
          |apply Hfin; now left].
      * apply Hfin; now left.
Qed.

(** * Further properties of the program *)

(** ** Blank input and the ways out of the loop *)

Lemma lstrip_blank (s : string) : blank s = true -> lstrip s = "".
Proof.
  induction s as [|c s IH]; [reflexivity|]. cbn [blank lstrip].
  destruct (isspace c); [exact IH | discriminate].
Qed.

Lemma rstrip_empty_blank (s : string) : rstrip s = "" -> blank s = true.
Proof.
  induction s as [|c s IH]; [reflexivity|]. cbn [blank rstrip].
  destruct (isspace c); cbn [andb]; [|discriminate].
  destruct (rstrip s); [intros _; now apply IH | discriminate].
Qed.

Lemma lstrip_not_blank (s : string) :
  blank s = false -> blank (lstrip s) = false.
Proof.
  induction s as [|c s IH]; [discriminate|]. cbn [blank lstrip].
  destruct (isspace c) eqn:Hc; cbn [andb]; [exact IH|].
  intros _. cbn [blank]. now rewrite Hc.
Qed.

(** [strip] gives the empty string exactly on blank text. *)
Lemma strip_empty_iff (s : string) : strip s = "" <-> blank s = true.
Proof.
  unfold strip. split.
  - intros H. apply rstrip_empty_blank in H.
    destruct (blank s) eqn:Hb; [reflexivity|].
    apply lstrip_not_blank in Hb. congruence.
  - intros H. now rewrite (lstrip_blank s H).
Qed.

(** X1. Within the text model of this file (characters U+0000..U+00FF), a
    line that is empty or made only of white-space characters (TAB..CR,
    FS..US, SPACE, NEL, NO-BREAK SPACE), that is, a line that [strip] leaves
    empty, is no turn: the loop asks for a question or command and goes on
    with the next input; the session is unchanged, the handler and the
    backends are not reached. *)
Theorem X1_blank_input_is_no_turn (w : World) (st : State) (text : string)
    (rest : list Input) :
  blank text = true ->
  turn w (Some (Line text)) st
  = (Ok Continue,
     mkState (session st)
       (trace st ++ prompt_events
        ++ [EvPrint "Please enter a question or command."])%list)
  /\ session_loop w (Line text :: rest) st
     = session_loop w rest
         (mkState (session st)
            (trace st ++ prompt_events
             ++ [EvPrint "Please enter a question or command."])%list).
Proof.
  intros Hb. apply strip_empty_iff in Hb.
  assert (Hturn : turn w (Some (Line text)) st
    = (Ok Continue,
       mkState (session st)
         (trace st ++ prompt_events
          ++ [EvPrint "Please enter a question or command."])%list)).
  { unfold turn, try_except, try_except_interrupt, turn_body.
    rewrite (bind_ok _ _ _ _ _ (get_user_input_line text st)), Hb.
    cbn. now rewrite <- app_assoc. }
  split; [exact Hturn|].
  cbn [session_loop]. now rewrite (bind_ok _ _ _ _ _ Hturn).
Qed.

Lemma X1_blank_input_is_no_turn_witness :
  blank "   " = true
  /\ turn world_up (Some (Line "   ")) two_exchanges
     = (Ok Continue,
        mkState (session two_exchanges)
          (trace two_exchanges ++ prompt_events
           ++ [EvPrint "Please enter a question or command."])%list).
Proof.
  split; [reflexivity|].
  apply (proj1 (X1_blank_input_is_no_turn world_up two_exchanges "   " []
                  eq_refl)).
Defined.




(** ** Computations that let no exception escape *)

Lemma quiet_ret {A} (a : A) : quiet (ret a).
Proof. intros st e H. discriminate H. Qed.



Lemma quiet_try_except {A} (body : M A) (handler : exn -> M A) :
  (forall e, quiet (handler e)) -> quiet (try_except body handler).
Proof.
  intros Hh st e. unfold try_except.
  destruct (body st) as [[a|e0] st1]; cbn [fst]; [discriminate|].
  destruct (is_Exception e0) eqn:He0; [apply Hh|].
  cbn [fst]. intros H. inversion H; subst. exact He0.
Qed.


Lemma test_model_availability_quiet (w : World) (key : string) :
  quiet (test_model_availability w key).
Proof.
  unfold test_model_availability.
  destruct (dict_get AVAILABLE_MODELS key); [|apply quiet_ret].
  apply quiet_try_except. intros _. apply quiet_ret.
Qed.


Lemma dict_get_registry (key : string) (info : ModelInfo) :
  dict_get AVAILABLE_MODELS key = Some info -> key = "gpt" \/ key = "llama".
Proof.
  cbn [dict_get AVAILABLE_MODELS].
  destruct (String.eqb_spec "gpt" key); [now left|].
  destruct (String.eqb_spec "llama" key); [now right | discriminate].
Qed.

(** ** The availability test *)

(** X3. [test_model_availability] is safe to call with any key in any
    world: it never changes the session, lets no exception escape (a failing
    or malformed [ollama.list()] reply counts as unavailable), makes at most
    one backend call, and answers [False] without any effect for a key that
    is not in the registry. *)
Theorem X3_availability_test_is_safe (w : World) (key : string) (st : State) :
  session (snd (test_model_availability w key st)) = session st
  /\ (forall e,
        fst (test_model_availability w key st) = Raise e ->
        is_Exception e = false)
  /\ backend_calls (new_events st (snd (test_model_availability w key st)))
     <= 1
  /\ (dict_get AVAILABLE_MODELS key = None ->
      test_model_availability w key st = (Ok false, st)).
Proof.
  split; [apply test_model_availability_session|].
  split; [apply test_model_availability_quiet|]. split.
  - destruct (dict_get AVAILABLE_MODELS key) as [info|] eqn:Hk.
    + destruct (dict_get_registry key info Hk) as [-> | ->].
      * rewrite test_model_availability_gpt. cbn [snd].
        rewrite (new_events_app st st []); [cbn; lia|].
        now rewrite app_nil_r.
      * rewrite test_model_availability_llama. cbn [snd].
        rewrite (new_events_app _ _ [EvOllamaList]); [cbn; lia|reflexivity].
    + unfold test_model_availability. rewrite Hk. cbn [ret snd].
      rewrite (new_events_app st st []); [cbn; lia|].
      now rewrite app_nil_r.
  - intros Hk. unfold test_model_availability. now rewrite Hk.
Qed.

Lemma listed_true_iff (model_name : string) (models : list (option string)) :
  listed model_name models = Some true
  <-> exists pre m post,
        models = (map Some pre ++ Some m :: post)%list
        /\ contains m model_name = true
        /\ forallb (fun x => negb (contains x model_name)) pre = true.
Proof.
  split.
  - induction models as [|[x|] rest IH]; cbn [listed]; try discriminate.
    destruct (contains x model_name) eqn:Hx.
    + intros _. exists [], x, rest. now repeat split.
    + intros H. destruct (IH H) as (pre & m & post & -> & Hm & Hpre).
      exists (x :: pre), m, post. cbn [map app forallb]. rewrite Hx.
      now repeat split.
  - intros (pre & m & post & -> & Hm & Hpre).
    induction pre as [|x pre IH]; cbn [map app listed].
    + now rewrite Hm.
    + cbn [forallb] in Hpre. apply andb_prop in Hpre as [Hx Hpre].
      apply negb_true_iff in Hx. rewrite Hx. now apply IH.
Qed.

(** X4. The local model counts as available exactly when [ollama.list()]
    returns, and its entries, read in order, reach one whose name contains
    [llama3.2] before reaching an entry without a name: a name such as
    [llama3.2:latest] matches, and a nameless entry ahead of the match makes
    the model unavailable. *)
Theorem X4_local_model_available_iff (w : World) (st : State) :
  fst (test_model_availability w "llama" st) = Ok true
  <-> exists pre m post,
        ollama_list w (trace st ++ [EvOllamaList])%list
        = Returns (map Some pre ++ Some m :: post)%list
        /\ contains m "llama3.2" = true
        /\ forallb (fun x => negb (contains x "llama3.2")) pre = true.
Proof.
  rewrite test_model_availability_llama. cbn [fst]. split.
  - destruct (ollama_list w _) as [models|e].
    + destruct (listed MODEL_LLAMA models) as [[|]|] eqn:Hl;
        try discriminate.
      intros _. apply listed_true_iff in Hl.
      destruct Hl as (pre & m & post & -> & Hm & Hpre).
      now exists pre, m, post.
    + destruct (is_Exception e); discriminate.
  - intros (pre & m & post & -> & Hm & Hpre).
    assert (Hl : listed MODEL_LLAMA (map Some pre ++ Some m :: post)
                 = Some true)
      by (apply listed_true_iff; now exists pre, m, post).
    now rewrite Hl.
Qed.

(** ** Exporting when the file system fails *)





(** X6. Once [save_conversation] has opened the file, it closes it on every
    path: whatever a write does (succeed, raise an exception, be
    interrupted), the events after the opening are clock readings and writes
    to that file, then the closing, and after the closing at most one
    message. *)
Theorem X6_export_closes_the_file (w : World) (st : State) :
  history st <> [] ->
  fs_open w
    (trace st
     ++ [EvNow "%Y%m%d_%H%M%S";
         EvOpen ("tutor_conversation_"
                 ++ strftime w (trace st ++ [EvNow "%Y%m%d_%H%M%S"])%list
                 ++ ".md")])%list
  = Returns tt ->
  exists written after,
    trace (snd (save_conversation w st))
    = (trace st
       ++ [EvNow "%Y%m%d_%H%M%S";
           EvOpen ("tutor_conversation_"
                   ++ strftime w (trace st ++ [EvNow "%Y%m%d_%H%M%S"])%list
                   ++ ".md")]
       ++ written
       ++ EvClose ("tutor_conversation_"
                   ++ strftime w (trace st ++ [EvNow "%Y%m%d_%H%M%S"])%list
                   ++ ".md")
          :: after)%list
    /\ Forall (export_event
                 ("tutor_conversation_"
                  ++ strftime w (trace st ++ [EvNow "%Y%m%d_%H%M%S"])%list
                  ++ ".md")) written
    /\ (after = [] \/ exists text, after = [EvPrint text]).
Proof.
  intros Hne Ho.
  set (filename := "tutor_conversation_"
                   ++ strftime w (trace st ++ [EvNow "%Y%m%d_%H%M%S"])%list
                   ++ ".md") in *.
  match type of Ho with
  | fs_open w (?t ++ [?a; ?b])%list = _ =>
      change (t ++ [a; b])%list with (t ++ [a] ++ [b])%list in Ho
  end.
  rewrite app_assoc in Ho.
  unfold save_conversation. unfold bind at 1. cbn [get_self].
  unfold history in Hne.
  destruct (conversation_history (session st)) as [|x h] eqn:Hh;
    [congruence|].
  unfold bind at 1. cbn [now_strftime session trace]. fold filename.
  unfold try_except.
  set (st1 := mkState (session st) (trace st ++ [EvNow "%Y%m%d_%H%M%S"])%list).
  rewrite (bind_ok _ _ _ tt _ (call_returns (EvOpen filename) (fs_open w) st1 tt Ho)).
  cbv beta. unfold bind at 1.
  match goal with |- context [try_finally ?b _ ?s] =>
    pose proof (fun H : respects (trace_grows (export_event filename)) b =>
                  H s) as Hbody;
    unfold try_finally; destruct (b s) as [r st3]
  end.
  cbn [snd] in Hbody.
  destruct Hbody as (written & Htr & Hw).
  { respects_auto. }
  cbn [emit session trace st1] in *.
  exists written.
  assert (Hfinal : forall after,
    ((trace st3 ++ [EvClose filename]) ++ after
     = trace st ++ [EvNow "%Y%m%d_%H%M%S"; EvOpen filename] ++ written
       ++ EvClose filename :: after)%list).
  { intros after. rewrite Htr. now rewrite <- !app_assoc. }
  destruct r as [u|e].
  - exists [EvPrint ("✅ Conversation saved to: " ++ filename)].
    split; [apply Hfinal|]. split; [exact Hw | right; now eexists].
  - destruct (is_Exception e).
    + exists [EvPrint ("❌ Error saving conversation: " ++ exn_str e)].
      split; [apply Hfinal|]. split; [exact Hw | right; now eexists].
    + exists []. split; [cbn [snd trace]; rewrite <- (Hfinal []); now rewrite app_nil_r|].
      split; [exact Hw | now left].
Qed.

Lemma X6_export_closes_the_file_witness :
  history two_exchanges <> []
  /\ exists written after,
       trace (snd (save_conversation world_up two_exchanges))
       = (trace two_exchanges
          ++ [EvNow "%Y%m%d_%H%M%S";
              EvOpen "tutor_conversation_20240101_120000.md"]
          ++ written
          ++ EvClose "tutor_conversation_20240101_120000.md" :: after)%list
       /\ Forall (export_event "tutor_conversation_20240101_120000.md") written
       /\ (after = [] \/ exists text, after = [EvPrint text]).
Proof.
  assert (H : history two_exchanges <> []) by (simpl; discriminate).
  split; [exact H|].
  exact (X6_export_closes_the_file world_up two_exchanges H eq_refl).
Defined.

(** ** The history preview *)

Lemma fold_left_history_lines (l : list (nat * (string * string)))
    (acc : string) :
  fold_left (fun history_text '(i, (q, _)) => history_text ++ history_line i q)
            l acc
  = acc ++ text_of (map (fun '(i, (q, _)) => history_line i q) l).
Proof.
  revert acc. induction l as [|[i [q a]] l IH]; intros acc;
    cbn [fold_left map text_of fold_right].
  - now rewrite append_empty_r.
  - rewrite IH. now rewrite append_assoc.
Qed.

Lemma take_all (n : nat) (s : string) :
  String.length s <= n -> take n s = s.
Proof.
  unfold take. revert n. induction s as [|c s IH]; intros [|n] H;
    cbn [substring String.length] in *; try reflexivity; [lia|].
  rewrite IH; [reflexivity | lia].
Qed.

Lemma take_length (n : nat) (s : string) :
  n <= String.length s -> String.length (take n s) = n.
Proof.
  unfold take. revert n. induction s as [|c s IH]; intros [|n] H;
    cbn [substring String.length] in *; try reflexivity; [lia|].
  rewrite IH; [reflexivity | lia].
Qed.

(** X7. A [history] command (the verb in any case) leaves the session as it
    is and shows one numbered line per stored question, in order, or says
    that there is no history yet.  Within the text model of this file
    (characters U+0000..U+00FF, which [len] and slicing count one by one), a
    question of at most 100 characters is shown whole; a longer one is cut
    to its first 100 characters, followed by an ellipsis. *)
Theorem X7_history_preview (w : World) (st : State) (command verb : string)
    (rest : list string) :
  startswith command "!" = true ->
  split (tail command) = verb :: rest ->
  lower verb = "history" ->
  handle_command w command st
  = (Ok true,
     mkState (session st)
       (trace st
        ++ [match history st with
            | [] => EvPrint "No conversation history yet."
            | _ :: _ =>
                EvDisplay ("## 📜 Conversation History:" ++ nl ++ nl
                           ++ text_of (preview_lines (history st)))
            end])%list)
  /\ List.length (preview_lines (history st)) = List.length (history st)
  /\ (forall n q a,
        nth_error (history st) n = Some (q, a) ->
        nth_error (preview_lines (history st)) n
        = Some (history_line (S n) q))
  /\ (forall i q,
        String.length q <= 100 ->
        history_line i q = "**" ++ str i ++ ".** " ++ q ++ nl)
  /\ (forall i q,
        100 < String.length q ->
        history_line i q = "**" ++ str i ++ ".** " ++ take 100 q ++ "..." ++ nl
        /\ String.length (take 100 q) = 100).
Proof.
  intros Hs Hp Hv. split; [|split; [|split; [|split]]].
  - unfold handle_command. rewrite Hs, Hp.
    cbn [negb list_head]. unfold bind at 1. cbn [ret]. rewrite Hv.
    cbn [String.eqb Ascii.eqb Bool.eqb orb].
    unfold bind, get_self, history.
    destruct (conversation_history (session st)) as [|x h]; [reflexivity|].
    unfold display_markdown, emit, ret. cbn [session trace].
    rewrite fold_left_history_lines. unfold preview_lines.
    now rewrite !append_assoc.
  - unfold preview_lines. now rewrite length_map, enumerate_length.
  - intros n q a H. unfold preview_lines.
    rewrite nth_error_map, (enumerate_nth_error _ 1 n (q, a) H). reflexivity.
  - intros i q H. unfold history_line. rewrite (take_all 100 q H).
    destruct (Nat.ltb_spec 100 (String.length q)); [lia|].
    reflexivity.
  - intros i q H. unfold history_line.
    destruct (Nat.ltb_spec 100 (String.length q)); [|lia].
    split; [reflexivity | apply take_length; lia].
Qed.

Lemma X7_history_preview_witness :
  startswith "!History" "!" = true
  /\ split (tail "!History") = ["History"]
  /\ lower "History" = "history"
  /\ handle_command world_up "!History" two_exchanges
     = (Ok true,
        mkState (session two_exchanges)
          [EvDisplay ("## 📜 Conversation History:" ++ nl ++ nl
                      ++ text_of (preview_lines (history two_exchanges)))]).
Proof.
  repeat (split; [reflexivity|]).
  apply (proj1 (X7_history_preview world_up two_exchanges "!History" "History"
                  [] eq_refl eq_refl eq_refl)).
Defined.

(** ** What the command handler raises and what it changes *)





#[export] Instance keeps_frame {A} (f : Session -> A) :
  Frame (fun _ => True) (keeps f).
Proof.
  split.
  - intros st. reflexivity.
  - intros st1 st2 st3 H1 H2. unfold keeps in *. congruence.
  - intros st e _. reflexivity.
Qed.

Lemma emits_only_keeps {A} (f : Session -> A) (P : Event -> Prop) st st' :
  emits_only P st st' -> keeps f st st'.
Proof. intros [H _]. unfold keeps. now rewrite H. Qed.

Lemma switch_model_keeps {A} (f : Session -> A) (w : World) (key : string) :
  (forall c h m m', f (mkSession c h m) = f (mkSession c h m')) ->
  respects (keeps f) (switch_model w key).
Proof.
  intros Hf. unfold switch_model, test_model_availability. respects_auto.
  intros st. unfold keeps. cbn. destruct (session st). apply Hf.
Qed.

(** X9. What a command may change.  Only the verb [clear] changes the
    history, only the verb [model] changes the selection, and no command
    changes the client object; so every other command (and every unknown
    one) leaves the session exactly as it was. *)
Theorem X9_commands_change_only_their_attribute (w : World) (st : State)
    (command : string) :
  (verb_of command <> Some "clear" ->
   history (snd (handle_command w command st)) = history st)
  /\ (verb_of command <> Some "model" ->
      selected (snd (handle_command w command st)) = selected st)
  /\ openai_client (session (snd (handle_command w command st)))
     = openai_client (session st).
Proof.
  assert (Hsave : forall A (f : Session -> A),
            respects (keeps f) (save_conversation w)).
  { intros A f.
    apply (respects_weaken _ _ _ (emits_only_keeps f (fun _ => True))).
    apply save_conversation_emits_only. }
  split; [|split].
  - intros Hv. revert st.
    change (respects (keeps conversation_history) (handle_command w command)).
    unfold verb_of, handle_command in *.
    destruct (negb (startswith command "!")); [apply respects_ret|].
    destruct (split (tail command)) as [|first parts];
      [intros st; reflexivity|].
    cbn [list_head]. apply respects_bind_ret. cbv zeta.
    destruct (String.eqb_spec (lower first) "clear") as [E|_];
      [now rewrite E in Hv|].
    respects_auto; try apply Hsave.
    apply switch_model_keeps. reflexivity.
  - intros Hv. revert st.
    change (respects (keeps current_model) (handle_command w command)).
    unfold verb_of, handle_command in *.
    destruct (negb (startswith command "!")); [apply respects_ret|].
    destruct (split (tail command)) as [|first parts];
      [intros st; reflexivity|].
    cbn [list_head]. apply respects_bind_ret. cbv zeta.
    destruct (String.eqb_spec (lower first) "model") as [E|_];
      [now rewrite E in Hv|].
    respects_auto; try apply Hsave.
    intros st. reflexivity.
  - revert st.
    change (respects (keeps openai_client) (handle_command w command)).
    unfold handle_command. respects_auto; try apply Hsave.
    + apply switch_model_keeps. reflexivity.
    + intros st. reflexivity.
Qed.

(** ** The client object and the selection *)

Lemma client_ok_step (st st' : State) :
  client_step st st' -> client_ok st -> client_ok st'.
Proof.
  intros [Hc [Hs|Hok]] H; [|exact Hok].
  unfold client_ok in *. rewrite Hs, Hc. exact H.
Qed.

#[export] Instance client_step_frame : Frame (fun _ => True) client_step.
Proof.
  split.
  - intros st. split; [reflexivity | now left].
  - intros st1 st2 st3 [Hc1 Hs1] [Hc2 Hs2]. split; [congruence|].
    destruct Hs2 as [Hs2|Hok]; [|now right].
    destruct Hs1 as [Hs1|Hok]; [left; congruence|].
    right. unfold client_ok in *. rewrite Hs2, Hc2. exact Hok.
  - intros st e _. split; [reflexivity | now left].
Qed.

Lemma emits_only_client_step (P : Event -> Prop) st st' :
  emits_only P st st' -> client_step st st'.
Proof.
  intros [H _]. unfold client_step, selected. rewrite H.
  split; [reflexivity | now left].
Qed.

Lemma set_conversation_history_client_step (h : list (string * string)) :
  respects client_step (set_conversation_history h).
Proof. intros st. split; [reflexivity | now left]. Qed.

Lemma switch_model_client_step (w : World) (key : string) :
  respects client_step (switch_model w key).
Proof.
  intros st. rewrite switch_model_cases.
  pose proof (test_model_availability_session w key st) as Hsess.
  destruct (dict_mem AVAILABLE_MODELS key);
    [|split; [reflexivity | now left]].
  destruct (test_model_availability w key st) as [[[|]|e] st1] eqn:Ht;
    cbn [snd] in *.
  - assert (Hok : key = "gpt" -> openai_client (session st1) <> None).
    { intros ->. rewrite test_model_availability_gpt in Ht.
      inversion Ht; subst.
      destruct (openai_client (session st1)); [discriminate | congruence]. }
    destruct (dict_get AVAILABLE_MODELS key); cbn [snd];
      (split; [cbn; now rewrite Hsess | right; exact Hok]).
  - split; [cbn; now rewrite Hsess|]. left. unfold selected. cbn [session].
    now rewrite Hsess.
  - split; [now rewrite Hsess|]. left. unfold selected. now rewrite Hsess.
Qed.

Lemma handle_command_client_step (w : World) (command : string) :
  respects client_step (handle_command w command).
Proof.
  unfold handle_command. respects_auto.
  - apply switch_model_client_step.
  - apply set_conversation_history_client_step.
  - apply (respects_weaken _ _ _ (emits_only_client_step (fun _ => True))).
    apply save_conversation_emits_only.
Qed.

Lemma turn_client_step (w : World) (input : option Input) :
  respects client_step (turn w input).
Proof.
  unfold turn, turn_body, get_user_input. respects_auto;
    try apply set_conversation_history_client_step.
  - apply handle_command_client_step.
  - apply (respects_weaken _ _ _ (emits_only_client_step (fun _ => True))).
    apply ask_question_emits_only.
Qed.

Lemma session_loop_client_step (w : World) (inputs : list Input) :
  respects client_step (session_loop w inputs).
Proof.
  induction inputs as [|input rest IH]; cbn [session_loop].
  - apply respects_bind; [apply turn_client_step | intros _; apply respects_ret].
  - apply respects_bind; [apply turn_client_step|].
    intros [|]; [exact IH | apply respects_ret].
Qed.

(** X10. The cloud model is selected only while there is a client object,
    and the client object made at start-up is never replaced: if this holds
    when a session starts (as it does after construction, which selects the
    local model), it holds when the session ends, so a question is never
    sent through a missing client. *)
Theorem X10_cloud_model_needs_client (w : World) (st : State)
    (inputs : list Input) :
  client_ok st ->
  client_ok (snd (run_interactive_session w inputs st))
  /\ openai_client (session (snd (run_interactive_session w inputs st)))
     = openai_client (session st).
Proof.
  intros Hok.
  assert (Hstep : client_step st (snd (run_interactive_session w inputs st))).
  { revert st Hok. intros st _. revert st.
    change (respects client_step
              (display_welcome w ;; session_loop w inputs)).
    apply respects_bind.
    - apply (respects_weaken _ _ _ (emits_only_client_step (fun _ => True))).
      apply display_welcome_emits_only.
    - intros _. apply session_loop_client_step. }
  split; [now apply (client_ok_step st) | apply Hstep].
Qed.

Lemma X10_cloud_model_needs_client_witness :
  client_ok fresh_state
  /\ client_ok
       (snd (run_interactive_session world_up
               [Line "!model gpt"; Line "what is a list?"] fresh_state)).
Proof.
  assert (H : client_ok fresh_state) by (intros H; discriminate H).
  split; [exact H|].
  apply (proj1 (X10_cloud_model_needs_client world_up fresh_state
                  [Line "!model gpt"; Line "what is a list?"] H)).
Defined.

(** ** Start-up *)


(** X11. Once [load_dotenv()] has returned, construction is not stopped by
    a backend that is down: [__init__] lets no exception escape, and when it
    returns the history is empty, the local model is selected, and the
    client object is the one [OpenAI()] returned, or [None] if [OpenAI()]
    raised. *)
Theorem X11_startup_tolerates_backends (w : World) (st : State) :
  load_dotenv w (trace st ++ [EvLoadDotenv])%list = Returns tt ->
  (forall e, fst (init w st) = Raise e -> is_Exception e = false)
  /\ (forall u,
        fst (init w st) = Ok u ->
        session (snd (init w st))
        = mkSession
            (match openai_init w
                     (trace st ++ [EvLoadDotenv; EvOpenAIInit])%list with
             | Returns c => Some c
             | Raises _ => None
             end) [] "llama").
Proof.
  intros Hload. split.
  - intros e H. pose proof (init_outcome w st) as Ho.
    destruct (init w st) as [[u|e0] st']; cbn [fst] in H; [discriminate|].
    inversion H; subst. destruct Ho as [Ho|Ho]; [exact Ho|].
    rewrite Hload in Ho. discriminate Ho.
  - intros u.
    change (trace st ++ [EvLoadDotenv; EvOpenAIInit])%list
      with (trace st ++ [EvLoadDotenv] ++ [EvOpenAIInit])%list.
    rewrite app_assoc.
    unfold init, setup_environment, bind, try_except, call, emit, log,
      set_openai_client, set_conversation_history, set_current_model,
      get_self, set_self, bind.
    cbn [session trace]. rewrite Hload. cbn [session trace].
    destruct (openai_init w _) as [c|e]; cbn;
      [|destruct (is_Exception e) eqn:He; cbn; [|discriminate]];
      (match goal with |- context [ollama_list w ?tr] =>
         destruct (ollama_list w tr) as [l|e'] end; cbn;
       [reflexivity
       |destruct (is_Exception e') eqn:He'; cbn;
        [reflexivity | discriminate]]).
Qed.

Lemma X11_startup_tolerates_backends_witness :
  load_dotenv world_down (trace fresh_state ++ [EvLoadDotenv])%list
  = Returns tt
  /\ fst (init world_down fresh_state) = Ok tt
  /\ session (snd (init world_down fresh_state)) = mkSession None [] "llama".
Proof.
  split; [reflexivity|]. split; [reflexivity|].
  exact (proj2 (X11_startup_tolerates_backends world_down fresh_state eq_refl)
           tt eq_refl).
Defined.





(** ** What becomes of the answer *)

(** A question turn, case by case on the world's reply to its completion
    call. *)
Lemma question_turn_cases (w : World) (st : State) (text : string) :
  is_empty (strip text) = false ->
  startswith (strip text) "!" = false ->
  exists evs,
    trace (snd (turn w (Some (Line text)) st)) = (trace st ++ evs)%list
    /\ ((completion_replies w (trace st) evs = []
         /\ session (snd (turn w (Some (Line text)) st)) = session st)
        \/ exists reply,
             completion_replies w (trace st) evs = [reply]
             /\ match reply with
                | Returns (Some a) =>
                    fst (turn w (Some (Line text)) st) = Ok Continue
                    /\ if is_empty a
                       then session (snd (turn w (Some (Line text)) st))
                            = session st
                            /\ In no_response evs
                       else session (snd (turn w (Some (Line text)) st))
                            = mkSession (openai_client (session st))
                                (history st ++ [(strip text, a)])%list
                                (current_model (session st))
                            /\ In (EvDisplay a) evs
                | Returns None =>
                    fst (turn w (Some (Line text)) st) = Ok Continue
                    /\ session (snd (turn w (Some (Line text)) st))
                       = session st
                    /\ In no_response evs
                | Raises e =>
                    session (snd (turn w (Some (Line text)) st)) = session st
                    /\ if is_Exception e
                       then fst (turn w (Some (Line text)) st) = Ok Continue
                       else match e with
                            | KeyboardInterrupt =>
                                fst (turn w (Some (Line text)) st) = Ok Break
                                /\ In (EvPrint (nl ++ nl
                                         ++ "👋 Session interrupted. Goodbye!"))
                                      evs
                            | _ => fst (turn w (Some (Line text)) st) = Raise e
                            end
                end).
Proof.
  intros Hq Hs.
  destruct (dict_get AVAILABLE_MODELS (selected st)) as [info|] eqn:Hinfo.
  2: { rewrite (turn_question_unregistered w text st Hq Hs Hinfo).
       cbn [fst snd trace session]. eexists. split; [reflexivity|]. left.
       split; [|reflexivity]. apply completion_replies_none.
       repeat constructor. }
  pose proof (turn_question w text st info Hq Hs Hinfo) as Hturn.
  pose proof (ask_question_outcome w (strip text) (asking info st)) as Hout.
  cbv zeta in Hout.
  destruct (ask_question w (strip text) (asking info st)) as [r1 st4].
  cbn [fst snd] in Hout. destruct Hout as [Hsess (evs & Htr & Hcases)].
  cbn [asking session] in Hsess.
  set (pre := (prompt_events
               ++ [EvPrint ("🤖 Thinking... (using " ++ description info ++ ")")])%list).
  assert (Hpre : Forall not_completion pre) by (repeat constructor).
  assert (Htr4 : forall post,
            (trace st4 ++ post = trace st ++ (pre ++ evs ++ post))%list).
  { intros post. rewrite Htr. unfold asking. cbn [trace]. fold pre.
    now rewrite <- !app_assoc. }
  assert (Hin : forall ev post, In ev post -> In ev (pre ++ evs ++ post)%list).
  { intros ev post H. apply in_or_app; right. apply in_or_app; now right. }
  destruct Hcases as [[Hnone Hr] | (ev & reply & rest' & Hevs & Hrep & Hm)].
  - assert (Hno : forall post, Forall not_completion post ->
              completion_replies w (trace st) (pre ++ evs ++ post) = []).
    { intros post Hpost. rewrite completion_replies_sandwich by assumption.
      exact Hnone. }
    destruct r1 as [[a|]|e].
    + now elim (Hr a).
    + rewrite Hturn. cbn [fst snd trace session]. eexists.
      split; [apply Htr4|]. left. split; [|exact Hsess].
      apply Hno. repeat constructor.
    + destruct e; cbn [is_Exception] in Hturn; rewrite Hturn;
        cbn [fst snd trace session];
        (eexists; split;
         [first [apply Htr4
                | rewrite <- (app_nil_r (trace st4)); apply Htr4]|]);
        left; (split; [apply Hno; repeat constructor | exact Hsess]).
  - assert (Hone : forall post, Forall not_completion post ->
              completion_replies w (trace st) (pre ++ evs ++ post) = [reply]).
    { intros post Hpost. rewrite completion_replies_sandwich by assumption.
      exact Hrep. }
    destruct reply as [a|e].
    + destruct Hm as [-> ->]. destruct a as [a|].
      * destruct (is_empty a) eqn:Ha; rewrite Hturn;
          cbn [fst snd trace session];
          (eexists; split; [apply Htr4|]); right; eexists;
          (split; [apply Hone; repeat constructor|]);
          cbv beta iota; rewrite Ha; (split; [reflexivity|]).
        -- split; [exact Hsess | apply Hin; now left].
        -- split; [unfold history; now rewrite Hsess | apply Hin; now left].
      * rewrite Hturn; cbn [fst snd trace session].
        eexists; split; [apply Htr4|]. right. eexists.
        split; [apply Hone; repeat constructor|].
        cbv beta iota. split; [reflexivity|].
        split; [exact Hsess | apply Hin; now left].
    + destruct (is_Exception e) eqn:He.
      * destruct Hm as [-> Hrest]. rewrite Hturn; cbn [fst snd trace session].
        eexists; split; [apply Htr4|]. right. eexists.
        split; [apply Hone; repeat constructor|].
        cbv beta iota. rewrite He. now split.
      * destruct Hm as [-> _]. rewrite He in Hturn.
        destruct e; try discriminate He; rewrite Hturn;
          cbn [fst snd trace session];
          (eexists; split;
           [first [apply Htr4
                  | rewrite <- (app_nil_r (trace st4)); apply Htr4]|]);
          right; eexists;
          (split; [apply Hone; repeat constructor|]);
          cbv beta iota; (split; [exact Hsess|]); cbn [is_Exception].
        -- split; [reflexivity | apply Hin; now left].
        -- reflexivity.
Qed.

(** X13. In a question turn whose completion call returns, the loop goes on,
    and the answer is recorded exactly when it is a non-empty text: then it
    is displayed and the pair (question as stripped, answer) is appended to
    the history, the rest of the session unchanged; an empty answer or no
    answer at all is reported as no response and the session is left as it
    was. *)
Theorem X13_answer_recorded_unless_empty (w : World) (st : State)
    (text : string) (rest : list Input) :
  is_empty (strip text) = false ->
  startswith (strip text) "!" = false ->
  forall a,
    In (Returns a)
       (completion_replies w (trace st)
          (new_events st (snd (turn w (Some (Line text)) st)))) ->
    fst (turn w (Some (Line text)) st) = Ok Continue
    /\ session_loop w (Line text :: rest) st
       = session_loop w rest (snd (turn w (Some (Line text)) st))
    /\ if truthy a
       then exists ans,
              a = Some ans
              /\ session (snd (turn w (Some (Line text)) st))
                 = mkSession (openai_client (session st))
                     (history st ++ [(strip text, ans)])%list
                     (current_model (session st))
              /\ In (EvDisplay ans)
                    (new_events st (snd (turn w (Some (Line text)) st)))
       else session (snd (turn w (Some (Line text)) st)) = session st
            /\ In no_response
                  (new_events st (snd (turn w (Some (Line text)) st))).
Proof.
  intros Hq Hs a.
  destruct (question_turn_cases w st text Hq Hs) as (evs & Htr & Hc).
  rewrite (new_events_app _ _ _ Htr).
  assert (Hloop :
    fst (turn w (Some (Line text)) st) = Ok Continue ->
    session_loop w (Line text :: rest) st
    = session_loop w rest (snd (turn w (Some (Line text)) st))).
  { intros H. cbn [session_loop]. unfold bind.
    destruct (turn w (Some (Line text)) st) as [r st']. cbn [fst snd] in *.
    now rewrite H. }
  destruct Hc as [[Hn _]|(reply & Hr & Hm)].
  - rewrite Hn. intros [].
  - rewrite Hr. intros [E|[]]. subst reply. destruct a as [ans|].
    + destruct Hm as [Hok Hm]. split; [exact Hok|]. split; [now apply Hloop|].
      unfold truthy. destruct (is_empty ans); cbn [negb]; [exact Hm|].
      exists ans. now split.
    + destruct Hm as [Hok Hm]. split; [exact Hok|].
      split; [now apply Hloop | exact Hm].
Qed.

Lemma X13_answer_recorded_unless_empty_witness :
  is_empty (strip " what is a list? ") = false
  /\ startswith (strip " what is a list? ") "!" = false
  /\ In (Returns (Some "A local answer."))
        (completion_replies world_up (trace fresh_state)
           (new_events fresh_state
              (snd (turn world_up (Some (Line " what is a list? "))
                      fresh_state))))
  /\ session (snd (turn world_up (Some (Line " what is a list? "))
                     fresh_state))
     = mkSession (Some Client) [("what is a list?", "A local answer.")]
         "llama".
Proof.
  assert (Hin : In (Returns (Some "A local answer."))
        (completion_replies world_up (trace fresh_state)
           (new_events fresh_state
              (snd (turn world_up (Some (Line " what is a list? "))
                      fresh_state))))) by (left; reflexivity).
  split; [reflexivity|]. split; [reflexivity|]. split; [exact Hin|].
  destruct (X13_answer_recorded_unless_empty world_up fresh_state
              " what is a list? " [] eq_refl eq_refl _ Hin)
    as (_ & _ & ans & Ha & Hsess & _).
  inversion Ha; subst ans. exact Hsess.
Defined.

(** X14. An interrupt that arrives while the completion call is under way
    ends the loop: the turn prints that the session was interrupted, the
    session is left as it was, and no further input is read. *)
Theorem X14_interrupted_completion_ends_loop (w : World) (st : State)
    (text : string) (rest : list Input) :
  is_empty (strip text) = false ->
  startswith (strip text) "!" = false ->
  In (Raises KeyboardInterrupt)
     (completion_replies w (trace st)
        (new_events st (snd (turn w (Some (Line text)) st)))) ->
  session (snd (turn w (Some (Line text)) st)) = session st
  /\ In (EvPrint (nl ++ nl ++ "👋 Session interrupted. Goodbye!"))
        (new_events st (snd (turn w (Some (Line text)) st)))
  /\ session_loop w (Line text :: rest) st
     = (Ok tt, snd (turn w (Some (Line text)) st)).
Proof.
  intros Hq Hs.
  destruct (question_turn_cases w st text Hq Hs) as (evs & Htr & Hc).
  rewrite (new_events_app _ _ _ Htr).
  destruct Hc as [[Hn _]|(reply & Hr & Hm)].
  - rewrite Hn. intros [].
  - rewrite Hr. intros [E|[]]. subst reply. cbn [is_Exception] in Hm.
    destruct Hm as [Hsess [Hbreak Hin]].
    split; [exact Hsess|]. split; [exact Hin|].
    cbn [session_loop]. unfold bind.
    destruct (turn w (Some (Line text)) st) as [r st']. cbn [fst snd] in *.
    now rewrite Hbreak.
Qed.

Lemma X14_interrupted_completion_ends_loop_witness :
  is_empty (strip "what is a list?") = false
  /\ startswith (strip "what is a list?") "!" = false
  /\ session_loop world_interrupted
       [Line "what is a list?"; Line "never read"] fresh_state
     = (Ok tt,
        snd (turn world_interrupted (Some (Line "what is a list?"))
               fresh_state)).
Proof.
  split; [reflexivity|]. split; [reflexivity|].
  apply (X14_interrupted_completion_ends_loop world_interrupted fresh_state
           "what is a list?" [Line "never read"] eq_refl eq_refl).
  left. reflexivity.
Defined.

(** ** Lines that start like an exit command *)

Lemma lower_app (a b : string) : lower (a ++ b) = lower a ++ lower b.
Proof.
  induction a as [|c a IH]; cbn [append lower]; [reflexivity|].
  now rewrite IH.
Qed.

Lemma startswith_app (s p : string) :
  startswith s p = true -> exists s', s = p ++ s'.
Proof.
  unfold startswith. revert s. induction p as [|c p IH]; intros s H.
  - now exists s.
  - destruct s as [|d s]; cbn [prefix] in H; [discriminate|].
    destruct (ascii_dec c d) as [->|]; [|discriminate].
    destruct (IH s H) as [s' ->]. now exists s'.
Qed.

(** A word that has been begun is the beginning of the first word that
    [split] gives. *)
Lemma split_from_head (s word : string) :
  is_empty word = false ->
  exists x parts, split_from word s = (word ++ x) :: parts.
Proof.
  revert word. induction s as [|c s IH]; intros word Hw;
    cbn [split_from]; rewrite ?Hw.
  - exists "", []. now rewrite append_empty_r.
  - destruct (isspace c).
    + exists "", (split_from "" s). now rewrite append_empty_r.
    + destruct (IH (word ++ String c "")) as (x & parts & H).
      { destruct word; [discriminate | reflexivity]. }
      exists (String c x), parts. rewrite H. now rewrite append_assoc.
Qed.

Lemma handle_command_exit_prefix (w : World) (command : string) (st : State) :
  startswith command "!quit" = true \/ startswith command "!exit" = true ->
  exists msg,
    handle_command w command st
    = (Ok true, mkState (session st) (trace st ++ [EvPrint msg])%list).
Proof.
  intros [H|H]; apply startswith_app in H as [s' ->].
  - destruct (split_from_head s' "quit" eq_refl) as (x & parts & Hx).
    assert (Hp : split (tail ("!quit" ++ s')) = ("quit" ++ x) :: parts)
      by exact Hx.
    assert (Hl : lower ("quit" ++ x) = "quit" ++ lower x)
      by apply lower_app.
    destruct (lower x) as [|c y] eqn:Hy.
    + eexists. apply (handle_command_quit w ("!quit" ++ s') ("quit" ++ x) parts st
                       eq_refl Hp).
      left. exact Hl.
    + eexists.
      apply (handle_command_unknown_verb w ("!quit" ++ s') ("quit" ++ x)
               parts st eq_refl Hp).
      rewrite Hl. cbn. intros HIn.
      repeat (destruct HIn as [HIn|HIn]; [discriminate HIn|]). exact HIn.
  - destruct (split_from_head s' "exit" eq_refl) as (x & parts & Hx).
    assert (Hp : split (tail ("!exit" ++ s')) = ("exit" ++ x) :: parts)
      by exact Hx.
    assert (Hl : lower ("exit" ++ x) = "exit" ++ lower x)
      by apply lower_app.
    destruct (lower x) as [|c y] eqn:Hy.
    + eexists. apply (handle_command_quit w ("!exit" ++ s') ("exit" ++ x) parts st
                       eq_refl Hp).
      right. exact Hl.
    + eexists.
      apply (handle_command_unknown_verb w ("!exit" ++ s') ("exit" ++ x)
               parts st eq_refl Hp).
      rewrite Hl. cbn. intros HIn.
      repeat (destruct HIn as [HIn|HIn]; [discriminate HIn|]). exact HIn.
Qed.

(** X15. The loop ends on every line that, once stripped, starts with
    [!quit] or [!exit], whatever follows those five characters: the handler
    prints one message (the farewell, or its unknown-command report), the
    session is left as it was, and no further input is read. *)
Theorem X15_exit_prefix_ends_loop (w : World) (st : State) (text : string)
    (rest : list Input) :
  startswith (strip text) "!quit" = true
  \/ startswith (strip text) "!exit" = true ->
  exists msg,
    session_loop w (Line text :: rest) st
    = (Ok tt,
       mkState (session st)
         (trace st ++ prompt_events ++ [EvPrint msg])%list).
Proof.
  intros H.
  destruct (handle_command_exit_prefix w (strip text)
              (mkState (session st) (trace st ++ prompt_events)%list) H)
    as [msg Hc].
  assert (Hq : is_empty (strip text) = false).
  { destruct H as [H|H]; apply startswith_app in H as [s' ->]; reflexivity. }
  exists msg. cbn [session_loop].
  rewrite (bind_ok _ _ _ _ _ (turn_handled w text st _ Hq Hc)).
  assert (Hb : startswith (strip text) "!quit"
               || startswith (strip text) "!exit" = true)
    by (destruct H as [-> | ->]; [reflexivity | apply orb_true_r]).
  rewrite Hb. cbn [ret session trace]. now rewrite <- app_assoc.
Qed.

Lemma X15_exit_prefix_ends_loop_witness :
  (startswith (strip "!exiting soon") "!quit" = true
   \/ startswith (strip "!exiting soon") "!exit" = true)
  /\ exists msg,
       session_loop world_up [Line "!exiting soon"; Line "never read"]
         fresh_state
       = (Ok tt,
          mkState (session fresh_state)
            (trace fresh_state ++ prompt_events ++ [EvPrint msg])%list).
Proof.
  assert (H : startswith (strip "!exiting soon") "!quit" = true
              \/ startswith (strip "!exiting soon") "!exit" = true)
    by (right; reflexivity).
  split; [exact H|].
  exact (X15_exit_prefix_ends_loop world_up fresh_state "!exiting soon"
           [Line "never read"] H).
Defined.

(** ** What the history holds *)

Lemma turn_entries_ok (w : World) (input : option Input) (st : State) :
  entries_ok (session st) -> entries_ok (session (snd (turn w input st))).
Proof.
  intros Hok.
  destruct input as [[text|]|]; try exact Hok.
  destruct (is_empty (strip text)) eqn:Hq.
  { unfold turn, try_except, try_except_interrupt, turn_body.
    rewrite (bind_ok _ _ _ _ _ (get_user_input_line text st)), Hq.
    exact Hok. }
  destruct (startswith (strip text) "!") eqn:Hs.
  { rewrite (turn_sentinel_session w text st Hs).
    pose proof (handle_command_handler_step w (strip text)
                  (mkState (session st) (trace st ++ prompt_events)%list))
      as [_ Hh].
    unfold entries_ok, history in *. cbn [session] in Hh.
    destruct Hh as [-> | ->]; [exact Hok | constructor]. }
  destruct (question_turn_cases w st text Hq Hs) as (evs & _ & Hc).
  destruct Hc as [[_ ->]|(reply & _ & Hm)]; [exact Hok|].
  destruct reply as [[a|]|e].
  - destruct Hm as [_ Hm]. destruct (is_empty a) eqn:Ha.
    + destruct Hm as [-> _]. exact Hok.
    + destruct Hm as [-> _]. unfold entries_ok in *.
      cbn [conversation_history]. apply Forall_app. split; [exact Hok|].
      constructor; [|constructor]. cbn [fst snd]. now repeat split.
  - destruct Hm as (_ & -> & _). exact Hok.
  - destruct Hm as [-> _]. exact Hok.
Qed.

(** X16. The history only ever holds real exchanges: in every session that
    starts with such a history (an empty one, after construction), each
    stored question is non-empty text that is not a command, and each stored
    answer is non-empty.  Blank lines, commands and empty answers never get
    into it. *)
Theorem X16_history_holds_real_exchanges (w : World) (st : State)
    (inputs : list Input) :
  entries_ok (session st) ->
  entries_ok (session (snd (run_interactive_session w inputs st))).
Proof.
  intros Hok. unfold run_interactive_session, bind.
  pose proof (display_welcome_emits_only w st) as [Hs _].
  destruct (display_welcome w st) as [[u|e] st1]; cbn [snd] in *;
    [|now rewrite Hs].
  rewrite <- Hs in Hok. clear Hs st. revert st1 Hok.
  induction inputs as [|input rest IH]; intros st Hok;
    cbn [session_loop]; unfold bind;
    pose proof (turn_entries_ok w) as Ht.
  - specialize (Ht None st Hok).
    destruct (turn w None st) as [[c|e] st2]; exact Ht.
  - specialize (Ht (Some input) st Hok).
    destruct (turn w (Some input) st) as [[[|]|e] st2]; cbn [snd] in *;
      [now apply IH | exact Ht | exact Ht].
Qed.

Lemma X16_history_holds_real_exchanges_witness :
  entries_ok (session fresh_state)
  /\ entries_ok
       (session
          (snd (run_interactive_session world_up
                  [Line "  "; Line "what is a list?"; Line "!help"]
                  fresh_state))).
Proof.
  assert (H : entries_ok (session fresh_state)) by constructor.
  split; [exact H|].
  exact (X16_history_holds_real_exchanges world_up fresh_state
           [Line "  "; Line "what is a list?"; Line "!help"] H).
Defined.

(** ** The welcome text *)

(** X17. With a registered selection, and the availability test of the
    local model answering, the welcome is a single Markdown text: the
    heading, one line for [gpt] and one for [llama] in that order, each with
    the mark of its availability at that moment, the description of the
    current model, and the list of commands.  Rendering it asks the local
    backend once and changes nothing in the session. *)
Theorem X17_welcome_rendering (w : World) (st : State) (info : ModelInfo)
    (available : bool) :
  dict_get AVAILABLE_MODELS (selected st) = Some info ->
  fst (test_model_availability w "llama" st) = Ok available ->
  display_welcome w st
  = (Ok tt,
     mkState (session st)
       (trace st
        ++ [EvOllamaList;
            EvDisplay
              (welcome_header
               ++ "- **gpt**: OpenAI GPT-4o Mini "
               ++ status_mark (match openai_client (session st) with
                               | Some _ => true
                               | None => false
                               end) ++ nl
               ++ "- **llama**: Llama 3.2 (Local) "
               ++ status_mark available ++ nl
               ++ nl ++ "**Current model**: " ++ description info
               ++ welcome_commands)])%list).
Proof.
  intros Hinfo Hav. unfold display_welcome. cbn [for_fold AVAILABLE_MODELS].
  unfold bind at 1. unfold bind at 1. unfold bind at 1.
  rewrite test_model_availability_gpt. cbn [ret]. unfold bind at 1.
  unfold bind at 1.
  destruct (test_model_availability w "llama" st) as [r st1] eqn:Ht.
  cbn [fst] in Hav. subst r.
  rewrite test_model_availability_llama in Ht. inversion Ht as [[Hr Hst]].
  cbn [ret]. unfold bind, get_self, dict_getitem. cbn [session trace].
  unfold selected in Hinfo. rewrite Hinfo.
  unfold display_markdown, emit, ret. cbn [session trace description].
  rewrite <- app_assoc. cbn [app]. unfold status_mark.
  now rewrite !append_assoc.
Qed.

Lemma X17_welcome_rendering_witness :
  dict_get AVAILABLE_MODELS (selected fresh_state)
  = Some (mkModelInfo MODEL_LLAMA "ollama" "Llama 3.2 (Local)")
  /\ fst (test_model_availability world_down "llama" fresh_state) = Ok false
  /\ display_welcome world_down fresh_state
     = (Ok tt,
        mkState (session fresh_state)
          [EvOllamaList;
           EvDisplay
             (welcome_header
              ++ "- **gpt**: OpenAI GPT-4o Mini ✅" ++ nl
              ++ "- **llama**: Llama 3.2 (Local) ❌" ++ nl
              ++ nl ++ "**Current model**: Llama 3.2 (Local)"
              ++ welcome_commands)]).
Proof.
  split; [reflexivity|]. split; [reflexivity|].
  exact (X17_welcome_rendering world_down fresh_state _ false
           eq_refl eq_refl).
Defined.

(** ** Nothing goes to the cloud without a client *)

#[export] Instance no_client_no_cloud_frame :
  Frame not_cloud_call no_client_no_cloud.
Proof.
  split.
  - intros st. split; [reflexivity|]. intros _. exists [].
    split; [now rewrite app_nil_r | constructor].
  - intros st1 st2 st3 [Hc1 H1] [Hc2 H2]. split; [congruence|].
    intros Hn. destruct (H1 Hn) as (evs1 & Ht1 & Hp1).
    rewrite <- Hc1 in Hn. destruct (H2 Hn) as (evs2 & Ht2 & Hp2).
    exists (evs1 ++ evs2)%list. split.
    + rewrite Ht2, Ht1. now rewrite app_assoc.
    + apply Forall_app. now split.
  - intros st e He. split; [reflexivity|]. intros _. exists [e].
    split; [reflexivity | now constructor].
Qed.

Lemma set_conversation_history_no_cloud (h : list (string * string)) :
  respects no_client_no_cloud (set_conversation_history h).
Proof.
  intros st. split; [reflexivity|]. intros _. exists [].
  split; [cbn; now rewrite app_nil_r | constructor].
Qed.

Lemma set_current_model_no_cloud (key : string) :
  respects no_client_no_cloud (set_current_model key).
Proof.
  intros st. split; [reflexivity|]. intros _. exists [].
  split; [cbn; now rewrite app_nil_r | constructor].
Qed.

Lemma ask_question_no_cloud (w : World) (question : string) :
  respects no_client_no_cloud (ask_question w question).
Proof.
  intros st.
  split; [now rewrite (proj1 (ask_question_emits_only w question st))|].
  intros Hnone.
  change (trace_grows not_cloud_call st (snd (ask_question w question st))).
  unfold ask_question. unfold bind at 1. cbn [get_self].
  set (self := session st) in *. clearbody self.
  match goal with |- trace_grows _ ?s (snd (?m ?s)) =>
    generalize s; change (respects (trace_grows not_cloud_call) m)
  end.
  rewrite Hnone. unfold get_system_prompt. respects_auto.
Qed.

Lemma handle_command_no_cloud (w : World) (command : string) :
  respects no_client_no_cloud (handle_command w command).
Proof.
  unfold handle_command, switch_model, save_conversation,
    test_model_availability.
  respects_auto;
    first [apply set_conversation_history_no_cloud
          | apply set_current_model_no_cloud].
Qed.

Lemma turn_no_cloud (w : World) (input : option Input) :
  respects no_client_no_cloud (turn w input).
Proof.
  unfold turn, turn_body, get_user_input. respects_auto;
    try apply set_conversation_history_no_cloud.
  - apply handle_command_no_cloud.
  - apply ask_question_no_cloud.
Qed.

(** X18. Without a client object nothing is ever sent to the cloud service:
    in a session that starts with [openai_client] being [None] (as
    construction leaves it when [OpenAI()] fails), no completion call to
    OpenAI occurs, whatever the user types. *)
Theorem X18_no_client_no_cloud_call (w : World) (st : State)
    (inputs : list Input) :
  openai_client (session st) = None ->
  exists evs,
    trace (snd (run_interactive_session w inputs st)) = (trace st ++ evs)%list
    /\ Forall (fun e => match e with
                        | EvOpenAIChat _ _ _ _ => False
                        | _ => True
                        end) evs.
Proof.
  intros Hnone.
  assert (Hloop : forall l, respects no_client_no_cloud (session_loop w l)).
  { induction l as [|input rest IH]; cbn [session_loop].
    - apply respects_bind; [apply turn_no_cloud | intros _; apply respects_ret].
    - apply respects_bind; [apply turn_no_cloud|].
      intros [|]; [exact IH | apply respects_ret]. }
  assert (Hrun : respects no_client_no_cloud (run_interactive_session w inputs)).
  { unfold run_interactive_session. apply respects_bind; [|intros _; apply Hloop].
    unfold display_welcome, test_model_availability. respects_auto. }
  exact (proj2 (Hrun st) Hnone).
Qed.

Lemma X18_no_client_no_cloud_call_witness :
  openai_client (session (mkState (mkSession None [] "llama") [])) = None
  /\ exists evs,
       trace (snd (run_interactive_session world_up
                     [Line "!model gpt"; Line "what is a list?"]
                     (mkState (mkSession None [] "llama") [])))
       = ([] ++ evs)%list
       /\ Forall (fun e => match e with
                           | EvOpenAIChat _ _ _ _ => False
                           | _ => True
                           end) evs.
Proof.
  split; [reflexivity|].
  exact (X18_no_client_no_cloud_call world_up
           (mkState (mkSession None [] "llama") [])
           [Line "!model gpt"; Line "what is a list?"] eq_refl).
Defined.
